(** * A shallow embedding of [classifier/finetune.py]

    The script fine-tunes a sequence-classification model.  Its own logic is
    a handful of small functions ([compute_metrics], [get_max_steps],
    [TrainerWithCustomLoss.compute_loss], and the two closures
    [convert_labels] and [tokenize] of [main]) glued to calls into external
    frameworks.  Python dictionaries are finite maps ([gmap]), exceptions are
    an error type, and the calls of [main] into the frameworks run in a small
    state-and-error monad over a world holding the files on disk and the log
    of the framework calls made so far. *)

From Stdlib Require Import ZArith QArith.
From stdpp Require Import gmap strings list fin_maps.

Open Scope Z_scope.
Open Scope string_scope.
Open Scope list_scope.

(** ** Python values, exceptions and results *)

(** The cells a dataset column holds in this script: strings ([text], raw
    [label]), integers (converted [label]) and lists of integers
    ([input_ids], [attention_mask]). *)
Inductive Value : Type :=
| VStr (s : string)
| VInt (z : Z)
| VInts (l : list Z).

(** The exceptions the modelled code can raise. *)
Inductive PyError : Type :=
| KeyError (key : Value)
| TypeError
| ValueError
| UnboundLocalError (name : string)
| ZeroDivisionError
| FileNotFoundError (path : string).

Inductive Result (A : Type) : Type :=
| Ok (a : A)
| Err (e : PyError).
Arguments Ok {A} a.
Arguments Err {A} e.

Definition result_bind {A B} (r : Result A) (k : A → Result B) : Result B :=
  match r with
  | Ok a => k a
  | Err e => Err e
  end.

(** A list comprehension [[f x for x in xs]] whose body can raise: elements
    are evaluated left to right and the first exception ends it. *)
Fixpoint result_mapM {A B} (f : A → Result B) (xs : list A) : Result (list B) :=
  match xs with
  | [] => Ok []
  | x :: xs' =>
      result_bind (f x) (λ y,
      result_bind (result_mapM f xs') (λ ys, Ok (y :: ys)))
  end.

(** ** Datasets *)

(** A batch, and a whole dataset split, is columnar: column name to the list
    of its cells ([dict[str, list[int | str]]] in the source). *)
Abbreviation Batch := (gmap string (list Value)).

Record Dataset : Type := mkDataset {
  columns : Batch;
  num_rows : nat;
}.

(** A [DatasetDict]: the splits in insertion order. *)
Abbreviation DatasetDict := (list (string * Dataset)).

(** ** Framework objects

    What the external frameworks hand back to the script is opaque to it; an
    object is modelled by the arguments of the call that built it. *)

Record Tokenizer : Type := mkTokenizer {
  tokenizer_name : string;
  model_max_length : nat;
}.

Record Model : Type := mkModel {
  model_name_of : string;
  model_num_labels : Z;
  model_id2label : gmap Z string;
  model_label2id : gmap string Z;
}.

Record TrainingArguments : Type := mkTrainingArguments {
  output_dir : string;
  evaluation_strategy : string;
  num_train_epochs_arg : Z;
  per_device_train_batch_size : Z;
  per_device_eval_batch_size : Z;
  save_strategy : string;
}.

(** The class whose constructor built a trainer object. *)
Inductive TrainerClass : Type :=
| Trainer_class
| TrainerWithCustomLoss_class.

(** The metrics callback a trainer can be given. *)
Inductive MetricsCallback : Type :=
| compute_metrics_callback.

(** The keyword arguments of [Trainer(...)]. *)
Record TrainerKwargs : Type := mkTrainerKwargs {
  kw_model : Model;
  kw_args : TrainingArguments;
  kw_train_dataset : Dataset;
  kw_eval_dataset : Dataset;
  kw_compute_metrics : MetricsCallback;
  kw_tokenizer : Tokenizer;
}.

Record Trainer : Type := mkTrainer {
  trainer_class : TrainerClass;
  trainer_kwargs : TrainerKwargs;
}.

(** The closures [main] hands to [DatasetDict.map]; [tokenize] captures the
    tokenizer. *)
Inductive MapFn : Type :=
| convert_labels_fn
| tokenize_fn (tokenizer : Tokenizer).

(** ** The world and the program monad *)

(** A call into a framework, as the log records it. *)
Inductive Call : Type :=
| CallModelFromPretrained (model : Model)
| CallTokenizerFromPretrained (tokenizer : Tokenizer)
| CallTensorTo (data : list Q) (device : string)
| CallLoadDataset (data_files : list (string * string))
| CallSelectColumns (names : list string)
| CallMap (fn : MapFn)
| CallShuffle (seed : Z)
| CallTrainingArguments (args : TrainingArguments)
| CallTrainerInit (trainer : Trainer)
| CallTrain (trainer : Trainer).

Record World : Type := mkWorld {
  disk : gmap string Dataset;   (* the parsed JSON-lines files, by path *)
  log : list Call;              (* framework calls, oldest first *)
}.

Definition M (A : Type) : Type := World → Result A * World.

Definition ret {A} (a : A) : M A := λ w, (Ok a, w).

Definition bind {A B} (c : M A) (k : A → M B) : M B :=
  λ w, match c w with
       | (Ok a, w') => k a w'
       | (Err e, w') => (Err e, w')
       end.

Definition raise {A} (e : PyError) : M A := λ w, (Err e, w).

Definition lift {A} (r : Result A) : M A := λ w, (r, w).

Definition emit (c : Call) : M unit :=
  λ w, (Ok tt, mkWorld (disk w) (log w ++ [c])).

Definition read_disk : M (gmap string Dataset) := λ w, (Ok (disk w), w).

Notation "'let!' x ':=' c 'in' k" := (bind c (λ x, k))
  (at level 10, x name, c at level 100, k at level 200, only parsing).
Notation "'run!' c 'in' k" := (bind c (λ _, k))
  (at level 10, c at level 100, k at level 200, only parsing).

Fixpoint mapM {A B} (f : A → M B) (xs : list A) : M (list B) :=
  match xs with
  | [] => ret []
  | x :: xs' =>
      let! y := f x in
      let! ys := mapM f xs' in
      ret (y :: ys)
  end.

(** ** Dictionary subscripts *)

(** [d[key]] on a dict with string keys.  A string that is not a key, and an
    integer (hashable, equal to no string), raise [KeyError]; a list is
    unhashable. *)
Definition dict_getitem {V} (d : gmap string V) (key : Value) : Result V :=
  match key with
  | VStr s =>
      match d !! s with
      | Some v => Ok v
      | None => Err (KeyError key)
      end
  | VInt _ => Err (KeyError key)
  | VInts _ => Err TypeError
  end.

(** [examples[name]] on a batch. *)
Definition batch_getitem (examples : Batch) (name : string) : Result (list Value) :=
  dict_getitem examples (VStr name).

(** ** The model hub and the trainer *)

Definition AutoModel_from_pretrained (name : string) (num_labels : Z)
    (i2l : gmap Z string) (l2i : gmap string Z) : M Model :=
  let model := mkModel name num_labels i2l l2i in
  run! emit (CallModelFromPretrained model) in
  ret model.

Definition AutoTokenizer_from_pretrained (name : string) (max_length : nat)
    : M Tokenizer :=
  let tokenizer := mkTokenizer name max_length in
  run! emit (CallTokenizerFromPretrained tokenizer) in
  ret tokenizer.

Definition Tensor_to (data : list Q) (device : string) : M (list Q * string) :=
  run! emit (CallTensorTo data device) in
  ret (data, device).

Definition TrainingArguments_init (args : TrainingArguments) : M TrainingArguments :=
  run! emit (CallTrainingArguments args) in
  ret args.

(** [Trainer.__init__], reached directly or through [super().__init__]. *)
Definition Trainer_init (cls : TrainerClass) (kwargs : TrainerKwargs) : M Trainer :=
  let trainer := mkTrainer cls kwargs in
  run! emit (CallTrainerInit trainer) in
  ret trainer.

Definition Trainer_train (trainer : Trainer) : M unit :=
  emit (CallTrain trainer).

(** ** [compute_metrics] *)

(** The four metric objects [evaluate.load] returns. *)
Inductive Metric : Type :=
| accuracy_metric
| f1_metric
| precision_metric
| recall_metric.

(** The module-level dict [metrics], in insertion order. *)
Definition metrics : list (string * Metric) :=
  [ ("accuracy", accuracy_metric);
    ("f1", f1_metric);
    ("precision", precision_metric);
    ("recall", recall_metric) ].

(** A float, as logits and scores are: a number, an infinity or NaN.  Every
    finite float is a rational; the code below only compares floats. *)
Inductive Float : Type :=
| FNaN
| FNegInf
| FNum (q : Q)
| FPosInf.

Definition isnan (x : Float) : bool :=
  match x with
  | FNaN => true
  | _ => false
  end.

(** [x <= y] on floats: false as soon as one side is NaN. *)
Definition float_leb (x y : Float) : bool :=
  match x, y with
  | FNaN, _ | _, FNaN => false
  | FNegInf, _ => true
  | _, FPosInf => true
  | FNum a, FNum b => Qle_bool a b
  | _, _ => false
  end.

(** [np.argmax] over one row of logits.  An empty row is an error.  The loop
    starts from the first entry, replaces the best entry by each later one
    that is not [<=] it, and stops at a NaN: the result is the index of the
    first NaN, or without a NaN that of the first greatest entry. *)
Fixpoint argmax_from (best_i : nat) (best : Float) (i : nat) (row : list Float)
    : nat :=
  match row with
  | [] => best_i
  | x :: row' =>
      if float_leb x best then argmax_from best_i best (S i) row'
      else if isnan x then i
      else argmax_from i x (S i) row'
  end.

Definition argmax (row : list Float) : Result nat :=
  match row with
  | [] => Err ValueError
  | x :: row' => Ok (if isnan x then 0%nat else argmax_from 0 x 1 row')
  end.

(** [np.argmax(logits, axis=-1)] on a batch of rows. *)
Definition argmax_last_axis (logits : list (list Float)) : Result (list nat) :=
  result_mapM argmax logits.

(** A dict comprehension [{k: f(v) for k, v in items}]: the entries are
    computed and stored in order, the first exception ends it. *)
Fixpoint dict_comprehension {A V} (f : A → Result V) (items : list (string * A))
    (acc : gmap string V) : Result (gmap string V) :=
  match items with
  | [] => Ok acc
  | (k, a) :: items' =>
      result_bind (f a) (λ v, dict_comprehension f items' (<[k := v]> acc))
  end.

Section Metrics.

(** What a metric's [compute] returns is the metric library's business. *)
Variable Score : Type.
Variable metric_compute : Metric → list nat → list Z → Result Score.

Definition compute_metrics (pred_eval : list (list Float) * list Z)
    : Result (gmap string Score) :=
  let '(logits, labels) := pred_eval in
  result_bind (argmax_last_axis logits) (λ predictions,
    dict_comprehension (λ metric, metric_compute metric predictions labels)
      metrics ∅).

End Metrics.

(** ** The metric library, as far as the shape of its results goes *)



Section MetricLibrary.

(** The number a metric computes from predictions and references, or the
    exception it raises: the numerics are the library's. *)
Variable metric_value : Metric → list nat → list Z → Result Float.


End MetricLibrary.

(** ** [get_max_steps] *)

(** The loop [for n_examples, _ in enumerate(f): pass]: the loop variable is
    bound by the first iteration and holds the last index afterwards. *)
Fixpoint enumerate_loop (n_examples : option Z) (i : Z) (lines : list string)
    : option Z :=
  match lines with
  | [] => n_examples
  | _ :: lines' => enumerate_loop (Some i) (i + 1) lines'
  end.

(** Python's [a // b] on integers. *)
Definition floordiv (a b : Z) : Result Z :=
  if (b =? 0)%Z then Err ZeroDivisionError else Ok (a / b).

Definition get_max_steps (files : gmap string (list string)) (train_path : string)
    (num_train_epochs batch_size : Z) : Result Z :=
  match files !! train_path with
  | None => Err (FileNotFoundError train_path)
  | Some f =>
      match enumerate_loop None 0 f with
      | None => Err (UnboundLocalError "n_examples")
      | Some n_examples => floordiv ((n_examples + 1) * num_train_epochs) batch_size
      end
  end.

(** ** [TrainerWithCustomLoss] *)

(** [d.pop(key)]: the value and the dict without the key, or [KeyError] and
    the dict as it was. *)
Definition dict_pop {V} (d : gmap string V) (key : string)
    : Result V * gmap string V :=
  match d !! key with
  | Some v => (Ok v, delete key d)
  | None => (Err (KeyError (VStr key)), d)
  end.

Section CustomLoss.

(** Tensors, model outputs and losses belong to the numerics library. *)
Variables Tensor Outputs Loss : Type.
Variable Outputs_logits : Outputs → Tensor.   (* [outputs.logits] *)

Record TrainerWithCustomLoss : Type := mkTrainerWithCustomLoss {
  super_Trainer : Trainer;
  compute_loss_fn : Tensor → Tensor → Loss;
}.

Definition TrainerWithCustomLoss_init (fn : Tensor → Tensor → Loss)
    (kwargs : TrainerKwargs) : M TrainerWithCustomLoss :=
  let! base := Trainer_init TrainerWithCustomLoss_class kwargs in
  ret (mkTrainerWithCustomLoss base fn).

(** What [compute_loss] returns: the loss, or the pair [(loss, outputs)]. *)
Inductive LossReturn : Type :=
| JustLoss (loss : Loss)
| LossAndOutputs (loss : Loss) (outputs : Outputs).

(** [compute_loss] works on the caller's [inputs] dict in place, so the dict
    after the call is returned next to the result.  The model is called with
    the entries of [inputs], unpacked as keyword arguments, as they are at
    that point. *)
Definition compute_loss (self : TrainerWithCustomLoss)
    (model : gmap string Tensor → Outputs) (inputs : gmap string Tensor)
    (return_outputs : bool) : Result LossReturn * gmap string Tensor :=
  match dict_pop inputs "labels" with
  | (Ok labels, inputs) =>
      let outputs := model inputs in
      let logits := Outputs_logits outputs in
      let loss := compute_loss_fn self logits labels in
      (Ok (if return_outputs then LossAndOutputs loss outputs else JustLoss loss),
       inputs)
  | (Err e, inputs) => (Err e, inputs)
  end.

End CustomLoss.

(** ** [convert_labels] *)

(** The dict literal [{"True": 1, "False": 0}] of [convert_labels]. *)
Definition label_table : gmap string Z := {[ "True" := 1; "False" := 0 ]}.

(** [id2label] and [label2id] of [main]. *)
Definition id2label : gmap Z string := {[ 0 := "False"; 1 := "True" ]}.
Definition label2id : gmap string Z := {[ "False" := 0; "True" := 1 ]}.

Definition convert_labels (examples : Batch) : M Batch :=
  let! labels := lift (batch_getitem examples "label") in
  let! ids := lift (result_mapM (dict_getitem label_table) labels) in
  ret {[ "label" := VInt <$> ids ]}.

Section Script.

(** ** [tokenize] *)

(** The call of the tokenizer object, [tokenizer(texts, truncation=...,
    padding=...)]: it belongs to the tokenizer library. *)
Variable tokenizer_call : Tokenizer → list Value → bool → string → Result Batch.

(** [tokenize] is defined inside [main] and has the one argument [examples];
    the tokenizer it calls is the variable [tokenizer] of [main], which the
    closure reads when it runs.  Here that variable is the first
    parameter. *)
Definition tokenize (tokenizer : Tokenizer) (examples : Batch) : M Batch :=
  let! texts := lift (batch_getitem examples "text") in
  lift (tokenizer_call tokenizer texts true "max_length").

(** ** The dataset framework, as far as the script drives it *)

Definition apply_map_fn (fn : MapFn) : Batch → M Batch :=
  match fn with
  | convert_labels_fn => convert_labels
  | tokenize_fn tokenizer => tokenize tokenizer
  end.

(** Rows [start .. start + n) of every column. *)
Definition slice (start n : nat) (b : Batch) : Batch :=
  (λ col, take n (drop start col)) <$> b.

Definition map_batch_size : nat := 1000.

Definition batch_starts (rows : nat) : list nat :=
  (λ k, k * map_batch_size)%nat <$> seq 0 ((rows + map_batch_size - 1) / map_batch_size).

Definition concat_batches (bs : list Batch) : Batch :=
  foldr (union_with (λ xs ys, Some (xs ++ ys))) ∅ bs.

(** [Dataset.map(fn, batched=True)]: [fn] sees the dataset a batch of rows at
    a time; the columns it returns replace or extend those of the batch.  An
    exception of [fn] is not caught.  An empty dataset is returned as it
    is. *)
Definition Dataset_map (fn : MapFn) (ds : Dataset) : M Dataset :=
  if (num_rows ds =? 0)%nat then ret ds
  else
    let! outs := mapM (λ start,
                   let batch := slice start map_batch_size (columns ds) in
                   let! out := apply_map_fn fn batch in
                   ret (out ∪ batch))
                 (batch_starts (num_rows ds)) in
    ret (mkDataset (concat_batches outs) (num_rows ds)).

(** [DatasetDict.map]: every split in turn. *)
Definition DatasetDict_map (fn : MapFn) (dd : DatasetDict) : M DatasetDict :=
  run! emit (CallMap fn) in
  mapM (λ kv, let! ds := Dataset_map fn (snd kv) in ret (fst kv, ds)) dd.

(** The row order a seed gives; the generator is the framework's. *)
Variable shuffle_rows : Z → Dataset → Dataset.

Definition DatasetDict_shuffle (seed : Z) (dd : DatasetDict) : M DatasetDict :=
  run! emit (CallShuffle seed) in
  ret ((λ kv, (fst kv, shuffle_rows seed (snd kv))) <$> dd).

Definition load_dataset (data_files : list (string * string)) : M DatasetDict :=
  run! emit (CallLoadDataset data_files) in
  let! files := read_disk in
  mapM (λ kv,
          match files !! snd kv with
          | Some ds => ret (fst kv, ds)
          | None => raise (FileNotFoundError (snd kv))
          end)
       data_files.

Definition Dataset_select_columns (names : list string) (ds : Dataset) : Result Dataset :=
  if forallb (λ n, bool_decide (is_Some (columns ds !! n))) names
  then Ok (mkDataset (filter (λ kv, fst kv ∈ names) (columns ds)) (num_rows ds))
  else Err ValueError.

Definition DatasetDict_select_columns (names : list string) (dd : DatasetDict)
    : M DatasetDict :=
  run! emit (CallSelectColumns names) in
  lift (result_mapM (λ kv, result_bind (Dataset_select_columns names (snd kv))
                             (λ ds, Ok (fst kv, ds))) dd).

(** [dataset["train"]] on a [DatasetDict]. *)
Definition DatasetDict_getitem (dd : DatasetDict) (split : string) : Result Dataset :=
  match list_find (λ kv, fst kv = split) dd with
  | Some (_, kv) => Ok (snd kv)
  | None => Err (KeyError (VStr split))
  end.

(** ** [main] *)

(** Values [main] imports from modules of the package that are not part of
    this file: the two folders of [classifier.paths] and the device
    [get_best_system_device()] picks. *)
Variables data_folder models_folder : string.
Variable best_system_device : string.

(** [folder / name] on paths. *)
Definition path_join (folder name : string) : string :=
  String.append folder (String.append "/" name).

Definition main : M unit :=
  let num_labels := 2 in
  let num_train_epochs := 50 in
  let batch_size := 16 in
  let model_name := "distilbert/distilbert-base-uncased" in
  let run_name := "debugging" in
  let device := best_system_device in
  let! label_loss_weights := Tensor_to [1 # 1; 10 # 1]%Q device in
  let! model := AutoModel_from_pretrained model_name num_labels id2label label2id in
  let! tokenizer := AutoTokenizer_from_pretrained model_name 512 in
  let! dataset := load_dataset
      [ ("train", path_join (path_join data_folder "finetuning") "augmented_train.jsonl");
        ("val", path_join (path_join data_folder "finetuning") "val.jsonl") ] in
  let! dataset := DatasetDict_select_columns ["text"; "label"] dataset in
  let! dataset := DatasetDict_map convert_labels_fn dataset in
  let! dataset := DatasetDict_map (tokenize_fn tokenizer) dataset in
  let! dataset := DatasetDict_shuffle 42 dataset in
  let! training_args := TrainingArguments_init
      (mkTrainingArguments (path_join models_folder run_name) "epoch"
         num_train_epochs batch_size batch_size "epoch") in
  let! train_dataset := lift (DatasetDict_getitem dataset "train") in
  let! eval_dataset := lift (DatasetDict_getitem dataset "val") in
  let! trainer := Trainer_init Trainer_class
      (mkTrainerKwargs model training_args train_dataset eval_dataset
         compute_metrics_callback tokenizer) in
  Trainer_train trainer.

End Script.

(** ** The tokenizer call, modelled *)

Section TokenizerModel.

(** The token ids the pretrained vocabulary assigns to a text, before any
    truncation or padding.  The vocabulary lives on the model hub. *)
Variable tokens_of : string → list Z.

Definition pad_token_id : Z := 0.

(** Modelled from the spec: what the external tokenizer does to one text.
    The source only configures it ([model_max_length=512],
    [truncation=True], [padding="max_length"]); following the spec, it
    truncates and pads the token sequence to the fixed maximum length. *)
Definition encode (max_length : nat) (truncation : bool) (padding : string)
    (text : string) : list Z * list Z :=
  let ids := tokens_of text in
  let kept := if truncation then take max_length ids else ids in
  let n_pad := if String.eqb padding "max_length"
               then (max_length - length kept)%nat else 0%nat in
  (kept ++ replicate n_pad pad_token_id,
   replicate (length kept) 1 ++ replicate n_pad 0).

Definition text_of (v : Value) : Result string :=
  match v with
  | VStr s => Ok s
  | _ => Err ValueError
  end.

(** Modelled from the spec: the call of the external tokenizer object on a
    batch of texts, giving the columns [input_ids] and [attention_mask]. *)
Definition tokenizer_call_model (tokenizer : Tokenizer) (texts : list Value)
    (truncation : bool) (padding : string) : Result Batch :=
  result_bind (result_mapM text_of texts) (λ strs,
    let encs := encode (model_max_length tokenizer) truncation padding <$> strs in
    Ok {[ "input_ids" := (λ e, VInts (fst e)) <$> encs;
          "attention_mask" := (λ e, VInts (snd e)) <$> encs ]}).

End TokenizerModel.

(** * Vocabulary of the properties *)

(** ** Cells and labels *)

Definition raw_label (v : Value) : Prop := v = VStr "True" ∨ v = VStr "False".

(** The cell types the source annotates for a batch: [int | str]. *)
Definition scalar_cell (v : Value) : Prop :=
  match v with
  | VStr _ | VInt _ => True
  | VInts _ => False
  end.

Definition malformed_label (s : string) : Prop := s ≠ "True" ∧ s ≠ "False".

Definition is_text (v : Value) : Prop := ∃ s, v = VStr s.

(** A dataset whose [label] column holds a malformed label in one of its
    rows. *)
Definition has_malformed_label (ds : Dataset) : Prop :=
  ∃ labels k s,
    columns ds !! "label" = Some labels ∧
    labels !! k = Some (VStr s) ∧
    (k < num_rows ds)%nat ∧
    malformed_label s.

(** ** Arithmetic and argmax *)

(** [q] is the floor of the exact quotient [a / b]. *)
Definition is_floor (a b q : Z) : Prop :=
  (0 < b → b * q ≤ a < b * (q + 1)) ∧
  (b < 0 → b * (q + 1) < a ≤ b * q).

(** [p] is the index of the first NaN of [row]. *)
Definition first_nan_at (row : list Float) (p : nat) : Prop :=
  row !! p = Some FNaN ∧
  (∀ j x, (j < p)%nat → row !! j = Some x → x ≠ FNaN).

(** [row] has no NaN and [v], at index [p], is its first greatest entry:
    every entry is [<=] it and it is [<=] no earlier one. *)
Definition first_max_at (row : list Float) (p : nat) (v : Float) : Prop :=
  row !! p = Some v ∧
  (FNaN ∉ row) ∧
  (∀ j x, row !! j = Some x → float_leb x v = true) ∧
  (∀ j x, (j < p)%nat → row !! j = Some x → float_leb v x = false).

(** What [np.argmax] picks: the first NaN, or without a NaN the first
    greatest entry. *)
Definition first_argmax (row : list Float) (p : nat) : Prop :=
  first_nan_at row p ∨ ∃ v, first_max_at row p v.

(** [x < y] on floats. *)
Definition float_ltb (x y : Float) : bool :=
  float_leb x y && negb (float_leb y x).

(** ** Worlds *)

(** The world after some more framework calls. *)
Definition emitted (w : World) (calls : list Call) : World :=
  mkWorld (disk w) (log w ++ calls).

(** A computation that gives the same result in every world and leaves the
    world alone. *)
Definition stateless {A} (c : M A) : Prop := ∃ r, ∀ w, c w = (r, w).

(** What [load_dataset] returns for the files on a disk. *)
Definition loaded (files : gmap string Dataset) (data_files : list (string * string))
    : Result DatasetDict :=
  result_mapM (λ kv, match files !! kv.2 with
                     | Some ds => Ok (kv.1, ds)
                     | None => Err (FileNotFoundError kv.2)
                     end) data_files.

(** ** The stages of the pipeline *)

(** Every column of a dataset has one cell for each of its rows. *)
Definition well_formed (ds : Dataset) : Prop :=
  ∀ name col, columns ds !! name = Some col → length col = num_rows ds.

(** Rows [start .. start + 1000) of one column: the part of it a batched map
    hands to its function at a time. *)
Definition chunk {A} (start : nat) (col : list A) : list A :=
  take map_batch_size (drop start col).

(** The column [name] of a list of batches, joined: the cells of the batches
    that have the column, one batch after the other. *)
Definition joined_column (name : string) (bs : list Batch) : option (list Value) :=
  foldr (λ b acc, union_with (λ xs ys, Some (xs ++ ys)) (b !! name) acc) None bs.

(** Two dataset dicts have the same splits in the same order, and [R] holds
    of their datasets split by split. *)
Definition splitwise {A B} (R : A → B → Prop) (dd : list (string * A))
    (dd' : list (string * B)) : Prop :=
  Forall2 (λ kv kv', kv'.1 = kv.1 ∧ R kv.2 kv'.2) dd dd'.

(** [ds'] is [ds] cut down to the columns [names], all of which [ds] has. *)
Definition columns_selected (names : list string) (ds ds' : Dataset) : Prop :=
  num_rows ds' = num_rows ds ∧
  (∀ name, name ∈ names →
           ∃ col, columns ds !! name = Some col ∧ columns ds' !! name = Some col) ∧
  (∀ name, name ∉ names → columns ds' !! name = None).

(** [ds'] is [ds] with every cell of its [label] column replaced by the
    integer the table gives for it, and nothing else changed. *)
Definition labels_converted (ds ds' : Dataset) : Prop :=
  num_rows ds' = num_rows ds ∧
  ∃ labels ids,
    columns ds !! "label" = Some labels ∧
    Forall2 (λ v i, dict_getitem label_table v = Ok i) labels ids ∧
    columns ds' = <["label" := VInt <$> ids]> (columns ds).

Section StageVocabulary.

Context (tokenizer_call : Tokenizer → list Value → bool → string → Result Batch).

(** [ds'] is [ds] after [tokenizer] went over its [text] column: an empty
    dataset is unchanged; otherwise the tokenizer was called on the texts of
    each batch of rows, with truncation and with padding to the maximum
    length, and a column of [ds'] is, batch after batch, the column the
    tokenizer returned for the batch, or else the batch's own. *)
Definition texts_tokenized (tokenizer : Tokenizer) (ds ds' : Dataset) : Prop :=
  num_rows ds' = num_rows ds ∧
  (num_rows ds = 0%nat → ds' = ds) ∧
  (num_rows ds ≠ 0%nat →
   ∃ texts encodings,
     columns ds !! "text" = Some texts ∧
     Forall2 (λ start encoding,
                tokenizer_call tokenizer (chunk start texts) true "max_length" = Ok encoding)
             (batch_starts (num_rows ds)) encodings ∧
     ∀ name,
       columns ds' !! name =
         joined_column name
           (zip_with (λ start encoding,
                        encoding ∪ slice start map_batch_size (columns ds))
                     (batch_starts (num_rows ds)) encodings)).

End StageVocabulary.

(** ** What [main] builds *)

(** The model and the tokenizer [main] asks the hub for. *)
Definition main_model : Model :=
  mkModel "distilbert/distilbert-base-uncased" 2 id2label label2id.

Definition main_tokenizer : Tokenizer :=
  mkTokenizer "distilbert/distilbert-base-uncased" 512.

(** The data a successful run of [main] hands to the trainer. *)
Record Pipeline : Type := mkPipeline {
  raw : DatasetDict;
  selected : DatasetDict;
  converted : DatasetDict;
  tokenized : DatasetDict;
  shuffled : DatasetDict;
  train : Dataset;
  val : Dataset;
}.

Section MainVocabulary.

Context (tokenizer_call : Tokenizer → list Value → bool → string → Result Batch).
Context (shuffle_rows : Z → Dataset → Dataset).
Context (data_folder models_folder best_system_device : string).

Definition main_data_files : list (string * string) :=
  [ ("train", path_join (path_join data_folder "finetuning") "augmented_train.jsonl");
    ("val", path_join (path_join data_folder "finetuning") "val.jsonl") ].

Definition main_training_args : TrainingArguments :=
  mkTrainingArguments (path_join models_folder "debugging") "epoch" 50 16 16 "epoch".

Definition main_trainer (train val : Dataset) : Trainer :=
  mkTrainer Trainer_class
    (mkTrainerKwargs main_model main_training_args train val
       compute_metrics_callback main_tokenizer).

(** The framework calls of [main] up to the construction of the trainer. *)
Definition setup_calls : list Call :=
  [ CallTensorTo [1 # 1; 10 # 1]%Q best_system_device;
    CallModelFromPretrained main_model;
    CallTokenizerFromPretrained main_tokenizer;
    CallLoadDataset main_data_files;
    CallSelectColumns ["text"; "label"];
    CallMap convert_labels_fn;
    CallMap (tokenize_fn main_tokenizer);
    CallShuffle 42;
    CallTrainingArguments main_training_args ].

Definition pipeline_of (files : gmap string Dataset) (p : Pipeline) : Prop :=
  loaded files main_data_files = Ok (raw p) ∧
  (∀ w, (DatasetDict_select_columns ["text"; "label"] (raw p) w).1 = Ok (selected p)) ∧
  (∀ w, (DatasetDict_map tokenizer_call convert_labels_fn (selected p) w).1 =
          Ok (converted p)) ∧
  (∀ w, (DatasetDict_map tokenizer_call (tokenize_fn main_tokenizer) (converted p) w).1 =
          Ok (tokenized p)) ∧
  (∀ w, (DatasetDict_shuffle shuffle_rows 42 (tokenized p) w).1 = Ok (shuffled p)) ∧
  DatasetDict_getitem (shuffled p) "train" = Ok (train p) ∧
  DatasetDict_getitem (shuffled p) "val" = Ok (val p).

End MainVocabulary.

(** ** Stand-ins for concrete runs *)

(** A toy metric for running [compute_metrics]: the number of predictions
    that agree with their reference, whatever the metric asked for. *)
Definition count_agreeing (metric : Metric) (predictions : list nat)
    (references : list Z) : Result Z :=
  if (length predictions =? length references)%nat
  then Ok (Z.of_nat (length (filter (λ pr, Z.of_nat pr.1 = pr.2)
                               (zip predictions references))))
  else Err ValueError.

(** Stand-ins for the vocabulary and the shuffle, to run the script on a
    small disk. *)
Definition toy_tokens (text : string) : list Z :=
  [101; Z.of_nat (String.length text); 102].

Definition toy_shuffle (seed : Z) (ds : Dataset) : Dataset :=
  mkDataset (reverse <$> columns ds) (num_rows ds).

Definition toy_train : Dataset :=
  mkDataset {[ "text" := [VStr "on sorting networks"; VStr "notes"];
               "label" := [VStr "True"; VStr "False"];
               "id" := [VInt 1; VInt 2] ]} 2.

Definition toy_val : Dataset :=
  mkDataset {[ "text" := [VStr "a survey"]; "label" := [VStr "False"] ]} 1.

Definition toy_val_malformed : Dataset :=
  mkDataset {[ "text" := [VStr "a survey"]; "label" := [VStr "Maybe"] ]} 1.

Definition toy_world (val : Dataset) : World :=
  mkWorld {[ "data/finetuning/augmented_train.jsonl" := toy_train;
             "data/finetuning/val.jsonl" := val ]} [].

Definition toy_main : M unit :=
  main (tokenizer_call_model toy_tokens) toy_shuffle "data" "models" "cpu".




(** A metric library in which f1 cannot be computed, to watch an exception
    of a metric go through [compute_metrics]. *)
Definition f1_unavailable (metric : Metric) (predictions : list nat)
    (references : list Z) : Result Z :=
  match metric with
  | f1_metric => Err TypeError
  | _ => count_agreeing metric predictions references
  end.

(** A disk that holds the train file only. *)
Definition toy_world_without_val : World :=
  mkWorld {[ "data/finetuning/augmented_train.jsonl" := toy_train ]} [].

(** * Properties *)

(** ** Results and comprehensions *)

Lemma result_mapM_Forall2 {A B} (f : A → Result B) xs ys :
  result_mapM f xs = Ok ys ↔ Forall2 (λ x y, f x = Ok y) xs ys.
Proof.
  revert ys. induction xs as [|x xs IH]; intros ys; simpl.
  - split.
    + intros [= <-]. constructor.
    + intros H. inversion H. reflexivity.
  - destruct (f x) as [y|e] eqn:Hfx; simpl.
    + destruct (result_mapM f xs) as [ys'|e] eqn:Hrest; simpl.
      * split.
        -- intros [= <-]. constructor; [assumption|]. by apply IH.
        -- intros H. inversion H as [|? y0 ? ys0 Hy Htl]; subst.
           apply IH in Htl. congruence.
      * split; [discriminate|].
        intros H. inversion H as [|? y0 ? ys0 Hy Htl]; subst.
        apply IH in Htl. discriminate.
    + split; [discriminate|].
      intros H. inversion H; subst. congruence.
Qed.

Lemma result_mapM_total {A B} (f : A → Result B) xs :
  Forall (λ x, ∃ y, f x = Ok y) xs → ∃ ys, result_mapM f xs = Ok ys.
Proof.
  induction 1 as [|x xs [y Hy] _ [ys Hys]]; simpl.
  - by exists [].
  - exists (y :: ys). by rewrite Hy, Hys.
Qed.

(** ** The label mapping *)

Lemma label_table_lookup s i :
  label_table !! s = Some i ↔ (s = "True" ∧ i = 1) ∨ (s = "False" ∧ i = 0).
Proof.
  unfold label_table. split.
  - intros H.
    destruct (decide (s = "True")) as [->|Hne1]; [simplify_map_eq; by left|].
    destruct (decide (s = "False")) as [->|Hne2]; [simplify_map_eq; by right|].
    simplify_map_eq.
  - intros [[-> ->]|[-> ->]]; by simplify_map_eq.
Qed.

Lemma id2label_lookup i s :
  id2label !! i = Some s ↔ (i = 0 ∧ s = "False") ∨ (i = 1 ∧ s = "True").
Proof.
  unfold id2label. split.
  - intros H.
    destruct (decide (i = 0)) as [->|Hne1]; [simplify_map_eq; by left|].
    destruct (decide (i = 1)) as [->|Hne2]; [simplify_map_eq; by right|].
    simplify_map_eq.
  - intros [[-> ->]|[-> ->]]; by simplify_map_eq.
Qed.

Lemma convert_labels_unfold examples labels w :
  examples !! "label" = Some labels →
  convert_labels examples w =
    (result_bind (result_mapM (dict_getitem label_table) labels)
       (λ ids, Ok {[ "label" := VInt <$> ids ]}), w).
Proof.
  intros Hl. unfold convert_labels, bind, lift, ret, batch_getitem. simpl.
  rewrite Hl. by destruct (result_mapM _ labels).
Qed.

Lemma label_table_getitem v i :
  dict_getitem label_table v = Ok i ↔
  (v = VStr "True" ∧ i = 1) ∨ (v = VStr "False" ∧ i = 0).
Proof.
  split.
  - destruct v as [s|z|l]; simpl; [|discriminate..].
    destruct (label_table !! s) as [i'|] eqn:Hs; [|discriminate].
    intros [= <-]. apply label_table_lookup in Hs.
    destruct Hs as [[-> ->]|[-> ->]]; [by left|by right].
  - by intros [[-> ->]|[-> ->]].
Qed.

Lemma convert_labels_Ok_inv (examples : Batch) labels w out :
  examples !! "label" = Some labels →
  convert_labels examples w = (Ok out, w) →
  ∃ ids, out = {[ "label" := VInt <$> ids ]} ∧
         Forall2 (λ v i, dict_getitem label_table v = Ok i) labels ids.
Proof.
  intros Hl. rewrite (convert_labels_unfold _ _ _ Hl).
  destruct (result_mapM (dict_getitem label_table) labels) as [ids|e] eqn:Hrun;
    simpl; [|discriminate].
  intros [= <-]. exists ids. split; [done|]. by apply result_mapM_Forall2.
Qed.

(** C2: the table of [convert_labels] sends "True" to 1 and "False" to 0 and
    nothing else, it is the inverse of [id2label] (and equal to [label2id]),
    and [convert_labels] applies it to every label of a batch of raw
    labels. *)
Theorem label_mapping_bijective :
  label_table !! "True" = Some 1 ∧
  label_table !! "False" = Some 0 ∧
  dom label_table = ({[ "True"; "False" ]} : gset string) ∧
  dom id2label = ({[ 0; 1 ]} : gset Z) ∧
  (∀ s i, label_table !! s = Some i ↔ id2label !! i = Some s) ∧
  label2id = label_table ∧
  (∀ (examples : Batch) labels w,
     examples !! "label" = Some labels →
     Forall raw_label labels →
     ∃ ids,
       convert_labels examples w = (Ok {[ "label" := VInt <$> ids ]}, w) ∧
       length ids = length labels ∧
       ∀ k s, labels !! k = Some (VStr s) →
         ∃ i, ids !! k = Some i ∧ label_table !! s = Some i ∧
              id2label !! i = Some s).
Proof.
  split_and!.
  - by apply label_table_lookup; left.
  - by apply label_table_lookup; right.
  - unfold label_table. rewrite dom_insert_L, dom_singleton_L. set_solver.
  - unfold id2label. rewrite dom_insert_L, dom_singleton_L. set_solver.
  - intros s i. rewrite label_table_lookup, id2label_lookup. tauto.
  - unfold label2id, label_table. rewrite <- !insert_empty.
    by apply insert_insert_ne.
  - intros examples labels w Hl Hraw.
    destruct (result_mapM_total (dict_getitem label_table) labels) as [ids Hids].
    { eapply Forall_impl; [exact Hraw|]. intros v [->| ->]; simpl; eauto. }
    exists ids. rewrite (convert_labels_unfold _ _ _ Hl), Hids. simpl.
    apply result_mapM_Forall2 in Hids. split_and!; [done| |].
    + symmetry. by eapply Forall2_length.
    + intros k s Hk.
      destruct (Forall2_lookup_l _ _ _ _ _ Hids Hk) as (i & Hi & Hget).
      exists i. simpl in Hget.
      destruct (label_table !! s) as [i'|] eqn:Hs; [|discriminate].
      injection Hget as ->. split_and!; [done..|].
      apply label_table_lookup in Hs. apply id2label_lookup. tauto.
Qed.

(** ** Malformed labels *)

Lemma dict_getitem_scalar {V} (d : gmap string V) v :
  scalar_cell v →
  (∃ x, dict_getitem d v = Ok x) ∨ dict_getitem d v = Err (KeyError v).
Proof.
  destruct v as [s|z|l]; simpl; intros Hv; [|by right|done].
  destruct (d !! s); eauto.
Qed.

Lemma result_mapM_getitem_error {V} (d : gmap string V) labels bad :
  Forall scalar_cell labels →
  bad ∈ labels →
  dict_getitem d bad = Err (KeyError bad) →
  ∃ key, key ∈ labels ∧ dict_getitem d key = Err (KeyError key) ∧
         result_mapM (dict_getitem d) labels = Err (KeyError key).
Proof.
  intros Hcells Hin Hbad. induction Hcells as [|v labels Hv _ IH]; simpl.
  - by apply elem_of_nil in Hin.
  - destruct (dict_getitem_scalar d v Hv) as [[x Hx]|Herr].
    + rewrite Hx. simpl. apply elem_of_cons in Hin as [->|Hin]; [congruence|].
      destruct (IH Hin) as (key & Hkey & Hget & Hrun).
      exists key. rewrite Hrun. split_and!; [by right|done..].
    + exists v. rewrite Herr. split_and!; [by left|done..].
Qed.

(** ** [get_max_steps] *)

Lemma enumerate_loop_last lines n i :
  enumerate_loop n i lines =
    match lines with
    | [] => n
    | _ :: _ => Some (i + Z.of_nat (length lines) - 1)
    end.
Proof.
  revert n i. induction lines as [|l lines IH]; intros n i; [done|].
  simpl enumerate_loop. rewrite IH. destruct lines as [|l' lines']; f_equal; simpl length; lia.
Qed.

Lemma Zdiv_is_floor a b : b ≠ 0 → is_floor a b (a / b).
Proof.
  intros Hb. split; intros Hsign.
  - pose proof (Z.mul_div_le a b Hsign).
    pose proof (Z.mul_succ_div_gt a b Hsign). lia.
  - pose proof (Z.mul_div_ge a b Hsign).
    pose proof (Z.mul_succ_div_lt a b Hsign). lia.
Qed.

(** C9, as stated, fails when [batch_size] is zero: a one-line file, one
    epoch and batch size 0 raise [ZeroDivisionError] instead of returning a
    number of steps. *)
Lemma get_max_steps_zero_batch_size :
  ¬ (∀ (files : gmap string (list string)) train_path f num_train_epochs batch_size,
       files !! train_path = Some f →
       (1 ≤ length f)%nat →
       get_max_steps files train_path num_train_epochs batch_size =
         Ok (Z.of_nat (length f) * num_train_epochs / batch_size)).
Proof.
  intros H.
  specialize (H {[ "train.jsonl" := ["{}"] ]} "train.jsonl" ["{}"] 1 0).
  rewrite lookup_singleton_eq in H.
  specialize (H eq_refl ltac:(simpl; lia)).
  vm_compute in H. discriminate.
Qed.

(** C9, amended: on a file of [N >= 1] lines [get_max_steps] returns the
    floor of [N * num_train_epochs / batch_size] for every nonzero
    [batch_size] and raises [ZeroDivisionError] for [batch_size = 0]; on an
    empty file it raises [UnboundLocalError] for the loop variable. *)
Theorem get_max_steps_spec (files : gmap string (list string)) train_path f
    num_train_epochs batch_size :
  files !! train_path = Some f →
  let N := Z.of_nat (length f) in
  (f ≠ [] → batch_size ≠ 0 →
     get_max_steps files train_path num_train_epochs batch_size =
       Ok (N * num_train_epochs / batch_size) ∧
     is_floor (N * num_train_epochs) batch_size (N * num_train_epochs / batch_size)) ∧
  (f ≠ [] → batch_size = 0 →
     get_max_steps files train_path num_train_epochs batch_size =
       Err ZeroDivisionError) ∧
  (f = [] →
     get_max_steps files train_path num_train_epochs batch_size =
       Err (UnboundLocalError "n_examples")).
Proof.
  intros Hf N. unfold get_max_steps. rewrite Hf, enumerate_loop_last.
  split_and!.
  - intros Hne Hb. destruct f as [|l f']; [done|].
    unfold floordiv. destruct (Z.eqb_spec batch_size 0) as [|_]; [done|].
    replace (0 + Z.of_nat (length (l :: f')) - 1 + 1) with N by (unfold N; lia).
    split; [done|]. by apply Zdiv_is_floor.
  - intros Hne ->. by destruct f.
  - by intros ->.
Qed.

Lemma get_max_steps_spec_witness :
  get_max_steps {[ "train.jsonl" := ["a"; "b"; "c"] ]} "train.jsonl" 50 16 = Ok 9.
Proof.
  pose proof (get_max_steps_spec {[ "train.jsonl" := ["a"; "b"; "c"] ]}
                "train.jsonl" ["a"; "b"; "c"] 50 16
                (lookup_singleton_eq _ _)) as (H & _ & _).
  destruct H as [H _]; [discriminate|lia|]. exact H.
Defined.

(** ** [TrainerWithCustomLoss.compute_loss] *)

Section CustomLossProperties.

Context {Tensor Outputs Loss : Type} (Outputs_logits : Outputs → Tensor).

(** C5: with a ["labels"] entry in [inputs], [compute_loss] calls the model
    on the remaining entries, applies the configured [compute_loss_fn] to the
    logits of the outputs and the labels, and returns the pair of loss and
    outputs when [return_outputs] is set, the loss alone otherwise. *)
Theorem compute_loss_spec (self : TrainerWithCustomLoss Tensor Loss)
    (model : gmap string Tensor → Outputs) (inputs : gmap string Tensor)
    (return_outputs : bool) (labels : Tensor) :
  inputs !! "labels" = Some labels →
  let outputs := model (delete "labels" inputs) in
  let loss := compute_loss_fn _ _ self (Outputs_logits outputs) labels in
  (compute_loss _ _ _ Outputs_logits self model inputs return_outputs).1 =
    Ok (if return_outputs then LossAndOutputs _ _ loss outputs else JustLoss _ _ loss).
Proof.
  intros Hl. unfold compute_loss, dict_pop. by rewrite Hl.
Qed.

(** C10: [compute_loss] leaves [inputs] without the ["labels"] key and with
    every other key as it was; where the key was present the call went
    through and the dict is exactly the one the model saw. *)
Theorem compute_loss_pops_labels (self : TrainerWithCustomLoss Tensor Loss)
    (model : gmap string Tensor → Outputs) (inputs : gmap string Tensor)
    (return_outputs : bool) :
  let after := (compute_loss _ _ _ Outputs_logits self model inputs return_outputs).2 in
  after = delete "labels" inputs ∧
  after !! "labels" = None ∧
  (∀ key, key ≠ "labels" → after !! key = inputs !! key) ∧
  (is_Some (inputs !! "labels") → after ≠ inputs).
Proof.
  unfold compute_loss, dict_pop.
  destruct (inputs !! "labels") as [labels|] eqn:Hl; simpl.
  - split_and!; [done|apply lookup_delete_eq| |].
    + intros key Hkey. by apply lookup_delete_ne.
    + intros _ Heq. rewrite <- Heq, lookup_delete_eq in Hl. discriminate.
  - split_and!; [by rewrite delete_id|done|done|].
    by intros [? [=]].
Qed.

End CustomLossProperties.

Lemma compute_loss_spec_witness :
  (compute_loss Z (Z * Z) Z fst
     (mkTrainerWithCustomLoss Z Z
        (mkTrainer TrainerWithCustomLoss_class
           (mkTrainerKwargs (mkModel "m" 2 id2label label2id)
              (mkTrainingArguments "out" "epoch" 50 16 16 "epoch")
              (mkDataset ∅ 0) (mkDataset ∅ 0) compute_metrics_callback
              (mkTokenizer "m" 512)))
        (λ lg lb, lg - lb))
     (λ kw, (default 0 (kw !! "input_ids") + 7, Z.of_nat (size kw)))
     {[ "labels" := 1; "input_ids" := 5 ]} true).1
  = Ok (LossAndOutputs _ _ 11 (12, 1)).
Proof.
  rewrite (compute_loss_spec (Tensor := Z) (Outputs := Z * Z) (Loss := Z) fst _ _ _ true 1).
  - vm_compute. reflexivity.
  - reflexivity.
Defined.

(** ** [compute_metrics] *)

Lemma float_leb_nan x y : float_leb x y = true → x ≠ FNaN ∧ y ≠ FNaN.
Proof. by destruct x, y. Qed.

Lemma float_leb_refl x : x ≠ FNaN → float_leb x x = true.
Proof.
  destruct x; simpl; try done. intros _. apply Qle_bool_iff, Qle_refl.
Qed.

Lemma float_leb_total x y :
  x ≠ FNaN → y ≠ FNaN → float_leb x y = false → float_leb y x = true.
Proof.
  destruct x, y; simpl; try done. intros _ _ Hnle.
  apply Qle_bool_iff, Qlt_le_weak, Qnot_le_lt.
  intros Hle. apply Qle_bool_iff in Hle. congruence.
Qed.

Lemma float_leb_trans x y z :
  float_leb x y = true → float_leb y z = true → float_leb x z = true.
Proof.
  destruct x, y, z; simpl; try done. rewrite !Qle_bool_iff. apply Qle_trans.
Qed.

Lemma first_max_at_not_nan row p v : first_max_at row p v → v ≠ FNaN.
Proof.
  intros (Hp & Hnan & _) ->. apply Hnan. by eapply list_elem_of_lookup_2.
Qed.

Lemma first_max_at_snoc_le seen p v x :
  first_max_at seen p v → float_leb x v = true → first_max_at (seen ++ [x]) p v.
Proof.
  intros (Hp & Hnan & Hall & Hbefore) Hx. split_and!.
  - by apply lookup_app_l_Some.
  - rewrite elem_of_app, list_elem_of_singleton. intros [?|<-]; [done|].
    by destruct (float_leb_nan _ _ Hx).
  - intros j y Hj. apply lookup_app_Some in Hj as [Hj|[_ Hj]]; [by eapply Hall|].
    apply list_lookup_singleton_Some in Hj as [_ <-]. exact Hx.
  - intros j y Hlt Hj. apply lookup_app_Some in Hj as [Hj|[Hge _]]; [by eapply Hbefore|].
    apply lookup_lt_Some in Hp. lia.
Qed.

Lemma first_max_at_snoc_gt seen p v x :
  first_max_at seen p v → x ≠ FNaN → float_leb x v = false →
  first_max_at (seen ++ [x]) (length seen) x.
Proof.
  intros Hfirst Hx Hnle. pose proof (first_max_at_not_nan _ _ _ Hfirst) as Hv.
  destruct Hfirst as (Hp & Hnan & Hall & Hbefore).
  pose proof (float_leb_total _ _ Hx Hv Hnle) as Hvx. split_and!.
  - rewrite lookup_app_r by lia. by rewrite Nat.sub_diag.
  - rewrite elem_of_app, list_elem_of_singleton. by intros [?|?].
  - intros j y Hj. apply lookup_app_Some in Hj as [Hj|[_ Hj]].
    + eapply float_leb_trans; [by eapply Hall|exact Hvx].
    + apply list_lookup_singleton_Some in Hj as [_ <-]. by apply float_leb_refl.
  - intros j y Hlt Hj. apply lookup_app_Some in Hj as [Hj|[Hge _]]; [|lia].
    destruct (float_leb x y) eqn:Hxy; [|done].
    rewrite (float_leb_trans _ _ _ Hxy (Hall _ _ Hj)) in Hnle. discriminate.
Qed.

Lemma argmax_from_first_max seen row best_i best :
  first_max_at seen best_i best →
  first_argmax (seen ++ row) (argmax_from best_i best (length seen) row).
Proof.
  revert seen best_i best. induction row as [|x row IH]; intros seen best_i best Hinv.
  - simpl. rewrite app_nil_r. right. by exists best.
  - simpl. destruct (float_leb x best) eqn:Hle; [|destruct (isnan x) eqn:Hnan].
    + replace (seen ++ x :: row) with ((seen ++ [x]) ++ row)
        by (by rewrite <- app_assoc).
      replace (S (length seen)) with (length (seen ++ [x]))
        by (rewrite length_app; simpl; lia).
      apply IH. by apply first_max_at_snoc_le.
    + destruct x; try discriminate. left. split.
      * rewrite lookup_app_r by lia. by rewrite Nat.sub_diag.
      * intros j y Hlt Hj ->. rewrite lookup_app_l in Hj by lia.
        destruct Hinv as (_ & Hno & _). apply Hno. by eapply list_elem_of_lookup_2.
    + replace (seen ++ x :: row) with ((seen ++ [x]) ++ row)
        by (by rewrite <- app_assoc).
      replace (S (length seen)) with (length (seen ++ [x]))
        by (rewrite length_app; simpl; lia).
      apply IH. eapply first_max_at_snoc_gt; [done| |done]. by intros ->.
Qed.

Lemma argmax_first_argmax row :
  row ≠ [] → ∃ p, argmax row = Ok p ∧ first_argmax row p.
Proof.
  destruct row as [|x row]; [done|]. intros _. eexists. split; [done|].
  destruct (isnan x) eqn:Hnan.
  - destruct x; try discriminate. left. split; [done|]. intros j y Hlt. lia.
  - apply (argmax_from_first_max [x] row 0 x). split_and!.
    + done.
    + rewrite list_elem_of_singleton. intros <-. discriminate.
    + intros [|j] y Hj; simpl in Hj; [|by destruct j].
      injection Hj as <-. apply float_leb_refl. by intros ->.
    + intros j y Hlt. lia.
Qed.


Lemma dict_comprehension_first_error {A V} (f : A → Result V) before k a after acc e :
  Forall (λ item, ∃ v, f item.2 = Ok v) before →
  f a = Err e →
  dict_comprehension f (before ++ (k, a) :: after) acc = Err e.
Proof.
  intros Hbefore Ha. revert acc.
  induction Hbefore as [|[k0 a0] before [v Hv] _ IH]; intros acc; simpl.
  - by rewrite Ha.
  - simpl in Hv. rewrite Hv. simpl. apply IH.
Qed.

Lemma four_scores_in_order {Score} (s1 s2 s3 s4 : Score) :
  <["recall" := s4]> (<["precision" := s3]> (<["f1" := s2]>
    (<["accuracy" := s1]> ∅))) =
  ({[ "accuracy" := s1; "f1" := s2; "precision" := s3; "recall" := s4 ]}
     : gmap string Score).
Proof.
  apply map_eq. intros k.
  destruct (decide (k = "accuracy")) as [->|?]; [by simplify_map_eq|].
  destruct (decide (k = "f1")) as [->|?]; [by simplify_map_eq|].
  destruct (decide (k = "precision")) as [->|?]; [by simplify_map_eq|].
  destruct (decide (k = "recall")) as [->|?]; by simplify_map_eq.
Qed.




(** ** [tokenize] *)

Lemma tokenize_unfold
    (tokenizer_call : Tokenizer → list Value → bool → string → Result Batch)
    tokenizer (examples : Batch) texts w :
  examples !! "text" = Some texts →
  tokenize tokenizer_call tokenizer examples w =
    (tokenizer_call tokenizer texts true "max_length", w).
Proof.
  intros Ht. unfold tokenize, bind, lift, batch_getitem. simpl. by rewrite Ht.
Qed.

Section TokenizeProperties.

Context (tokens_of : string → list Z).

Lemma encode_length max_length text :
  length (encode tokens_of max_length true "max_length" text).1 = max_length ∧
  length (encode tokens_of max_length true "max_length" text).2 = max_length.
Proof.
  unfold encode. simpl. rewrite !length_app, !length_replicate, length_take. lia.
Qed.

Lemma encode_long max_length text :
  (max_length ≤ length (tokens_of text))%nat →
  (encode tokens_of max_length true "max_length" text).1 =
    take max_length (tokens_of text).
Proof.
  intros Hlong. unfold encode. simpl.
  rewrite length_take, Nat.min_l by lia. rewrite Nat.sub_diag. simpl.
  apply app_nil_r.
Qed.

Lemma encode_short max_length text :
  (length (tokens_of text) ≤ max_length)%nat →
  (encode tokens_of max_length true "max_length" text).1 =
    tokens_of text ++ replicate (max_length - length (tokens_of text)) pad_token_id.
Proof.
  intros Hshort. unfold encode. simpl. by rewrite take_ge by lia.
Qed.

(** C4: with the maximum length configured to 512, [tokenize] gives every
    text of a batch an [input_ids] and an [attention_mask] sequence of
    exactly 512 entries: the first 512 tokens of a longer text, the tokens of
    a shorter one followed by padding. *)
Theorem tokenize_fixed_length tokenizer (examples : Batch) texts w :
  model_max_length tokenizer = 512%nat →
  examples !! "text" = Some texts →
  Forall is_text texts →
  ∃ ids masks,
    tokenize (tokenizer_call_model tokens_of) tokenizer examples w =
      (Ok {[ "input_ids" := ids; "attention_mask" := masks ]}, w) ∧
    length ids = length texts ∧
    length masks = length texts ∧
    ∀ k s, texts !! k = Some (VStr s) →
      ∃ l m, ids !! k = Some (VInts l) ∧ masks !! k = Some (VInts m) ∧
             length l = 512%nat ∧ length m = 512%nat ∧
             ((512 ≤ length (tokens_of s))%nat → l = take 512 (tokens_of s)) ∧
             ((length (tokens_of s) ≤ 512)%nat →
                l = tokens_of s ++ replicate (512 - length (tokens_of s)) pad_token_id).
Proof.
  intros Hmax Ht Htexts.
  destruct (result_mapM_total text_of texts) as [strs Hstrs].
  { eapply Forall_impl; [exact Htexts|]. intros v [s ->]. simpl. eauto. }
  rewrite (tokenize_unfold _ _ _ _ _ Ht). unfold tokenizer_call_model.
  rewrite Hstrs, Hmax. simpl. do 2 eexists. split; [reflexivity|].
  apply result_mapM_Forall2 in Hstrs.
  pose proof (Forall2_length _ _ _ Hstrs) as Hlen.
  rewrite !length_fmap. split_and!; [done..|].
  intros k s Hk.
  destruct (Forall2_lookup_l _ _ _ _ _ Hstrs Hk) as (s' & Hs' & Hget).
  simpl in Hget. injection Hget as <-.
  exists (encode tokens_of 512 true "max_length" s).1,
         (encode tokens_of 512 true "max_length" s).2.
  rewrite !list_lookup_fmap, Hs'. simpl.
  destruct (encode_length 512 s) as [Hl Hm].
  split_and!; [done..| |].
  - apply encode_long.
  - apply encode_short.
Qed.

End TokenizeProperties.



(** ** Running the program monad *)

Lemma emitted_emitted w calls calls' :
  emitted (emitted w calls) calls' = emitted w (calls ++ calls').
Proof. unfold emitted. simpl. by rewrite app_assoc. Qed.

Lemma stateless_lift {A} (r : Result A) : stateless (lift r).
Proof. by exists r. Qed.

Lemma stateless_ret {A} (a : A) : stateless (ret a).
Proof. by exists (Ok a). Qed.

Lemma stateless_bind {A B} (c : M A) (k : A → M B) :
  stateless c → (∀ a, stateless (k a)) → stateless (bind c k).
Proof.
  intros [r Hc] Hk. destruct r as [a|e].
  - destruct (Hk a) as [r' Hka]. exists r'. intros w. unfold bind. by rewrite Hc, Hka.
  - exists (Err e). intros w. unfold bind. by rewrite Hc.
Qed.

Lemma stateless_mapM {A B} (f : A → M B) xs :
  (∀ x, stateless (f x)) → stateless (mapM f xs).
Proof.
  intros Hf. induction xs as [|x xs IH]; simpl.
  - apply stateless_ret.
  - apply stateless_bind; [apply Hf|]. intros y.
    apply stateless_bind; [apply IH|]. intros ys. apply stateless_ret.
Qed.

Lemma stateless_run {A} (c : M A) r w w' :
  stateless c → c w = (r, w') → w' = w ∧ ∀ w0, c w0 = (r, w0).
Proof.
  intros [r0 Hr0] Hrun. rewrite Hr0 in Hrun. injection Hrun as -> ->. done.
Qed.

Lemma mapM_stateless_inv {A B} (f : A → M B) xs ys w w' :
  (∀ x, stateless (f x)) →
  mapM f xs w = (Ok ys, w') →
  w' = w ∧ Forall2 (λ x y, ∀ w0, f x w0 = (Ok y, w0)) xs ys.
Proof.
  intros Hf. revert ys. induction xs as [|x xs IH]; intros ys Hrun.
  - injection Hrun as <- <-. split; [done|constructor].
  - simpl in Hrun. unfold bind at 1 in Hrun.
    destruct (Hf x) as [r Hr]. rewrite Hr in Hrun.
    destruct r as [y|e]; [|discriminate].
    unfold bind at 1 in Hrun.
    destruct (mapM f xs w) as [[ys'|e] w1] eqn:Hrest; [|discriminate].
    injection Hrun as <- <-.
    destruct (IH _ eq_refl) as [-> Hall]. split; [done|].
    constructor; [done|exact Hall].
Qed.

Lemma stateless_convert_labels examples : stateless (convert_labels examples).
Proof.
  unfold convert_labels.
  repeat (apply stateless_bind; [apply stateless_lift|intros ?]).
  apply stateless_ret.
Qed.

Section PipelineProperties.

Context (tokenizer_call : Tokenizer → list Value → bool → string → Result Batch).
Context (shuffle_rows : Z → Dataset → Dataset).

Lemma stateless_tokenize tokenizer examples :
  stateless (tokenize tokenizer_call tokenizer examples).
Proof.
  unfold tokenize. apply stateless_bind; [apply stateless_lift|intros ?].
  apply stateless_lift.
Qed.

Lemma stateless_apply_map_fn fn batch :
  stateless (apply_map_fn tokenizer_call fn batch).
Proof.
  destruct fn; [apply stateless_convert_labels|apply stateless_tokenize].
Qed.

Lemma stateless_Dataset_map fn ds : stateless (Dataset_map tokenizer_call fn ds).
Proof.
  unfold Dataset_map. destruct (num_rows ds =? 0)%nat; [apply stateless_ret|].
  apply stateless_bind; [|intros ?; apply stateless_ret].
  apply stateless_mapM. intros start.
  apply stateless_bind; [apply stateless_apply_map_fn|intros ?; apply stateless_ret].
Qed.

(** Each framework call of [main] logs itself once, whether it then returns
    or raises. *)
Lemma DatasetDict_map_run fn dd :
  ∃ r, ∀ w, DatasetDict_map tokenizer_call fn dd w = (r, emitted w [CallMap fn]).
Proof.
  destruct (stateless_mapM
              (λ kv, bind (Dataset_map tokenizer_call fn kv.2) (λ ds, ret (kv.1, ds))) dd)
    as [r Hr].
  { intros kv. apply stateless_bind; [apply stateless_Dataset_map|].
    intros ?. apply stateless_ret. }
  exists r. intros w. unfold DatasetDict_map, bind, emit. by rewrite Hr.
Qed.

Lemma DatasetDict_shuffle_run seed dd w :
  DatasetDict_shuffle shuffle_rows seed dd w =
    (Ok ((λ kv, (kv.1, shuffle_rows seed kv.2)) <$> dd), emitted w [CallShuffle seed]).
Proof. reflexivity. Qed.

Lemma DatasetDict_select_columns_run names dd w :
  DatasetDict_select_columns names dd w =
    (result_mapM (λ kv, result_bind (Dataset_select_columns names kv.2)
                          (λ ds, Ok (kv.1, ds))) dd,
     emitted w [CallSelectColumns names]).
Proof. reflexivity. Qed.

Lemma load_dataset_run data_files w :
  load_dataset data_files w =
    (loaded (disk w) data_files, emitted w [CallLoadDataset data_files]).
Proof.
  unfold load_dataset, bind, emit, read_disk. simpl.
  fold (emitted w [CallLoadDataset data_files]).
  generalize (emitted w [CallLoadDataset data_files]) as w'.
  unfold loaded. induction data_files as [|kv data_files IH]; intros w'; simpl; [done|].
  unfold bind at 1. destruct (disk w !! kv.2) as [ds|]; simpl; [|done].
  unfold bind at 1. rewrite IH.
  by destruct (result_mapM _ data_files).
Qed.

End PipelineProperties.

(** ** [main] *)

Lemma bind_run {A B} (c : M A) (k : A → M B) w r w1 :
  c w = (r, w1) →
  bind c k w = match r with
               | Ok a => k a w1
               | Err e => (Err e, w1)
               end.
Proof. intros Hc. unfold bind. by rewrite Hc. Qed.

Lemma lift_run {A} (r : Result A) w : lift r w = (r, w).
Proof. reflexivity. Qed.

Lemma Tensor_to_run data device w :
  Tensor_to data device w = (Ok (data, device), emitted w [CallTensorTo data device]).
Proof. reflexivity. Qed.

Lemma AutoModel_from_pretrained_run name num_labels i2l l2i w :
  AutoModel_from_pretrained name num_labels i2l l2i w =
    (Ok (mkModel name num_labels i2l l2i),
     emitted w [CallModelFromPretrained (mkModel name num_labels i2l l2i)]).
Proof. reflexivity. Qed.

Lemma AutoTokenizer_from_pretrained_run name max_length w :
  AutoTokenizer_from_pretrained name max_length w =
    (Ok (mkTokenizer name max_length),
     emitted w [CallTokenizerFromPretrained (mkTokenizer name max_length)]).
Proof. reflexivity. Qed.

Lemma TrainingArguments_init_run args w :
  TrainingArguments_init args w = (Ok args, emitted w [CallTrainingArguments args]).
Proof. reflexivity. Qed.

Lemma Trainer_init_run cls kwargs w :
  Trainer_init cls kwargs w =
    (Ok (mkTrainer cls kwargs), emitted w [CallTrainerInit (mkTrainer cls kwargs)]).
Proof. reflexivity. Qed.

Lemma Trainer_train_run trainer w :
  Trainer_train trainer w = (Ok tt, emitted w [CallTrain trainer]).
Proof. reflexivity. Qed.

Section MainProperties.

Context (tokenizer_call : Tokenizer → list Value → bool → string → Result Batch).
Context (shuffle_rows : Z → Dataset → Dataset).
Context (data_folder models_folder best_system_device : string).

Local Abbreviation main' :=
  (main tokenizer_call shuffle_rows data_folder models_folder best_system_device).
Local Abbreviation main_data_files' := (main_data_files data_folder).
Local Abbreviation main_training_args' := (main_training_args models_folder).
Local Abbreviation main_trainer' := (main_trainer models_folder).
Local Abbreviation setup_calls' :=
  (setup_calls data_folder models_folder best_system_device).
Local Abbreviation pipeline_of' :=
  (pipeline_of tokenizer_call shuffle_rows data_folder).

Local Ltac calls_prefix :=
  eexists; split; [reflexivity|]; simpl; split; [|lia]; unfold setup_calls;
  repeat apply prefix_cons; apply prefix_nil.

Lemma main_run w :
  ∃ new, (main' w).2 = emitted w new ∧
    match (main' w).1 with
    | Err _ => new `prefix_of` setup_calls' ∧ (4 ≤ length new)%nat
    | Ok _ =>
        ∃ p, pipeline_of' (disk w) p ∧
             new = setup_calls' ++ [CallTrainerInit (main_trainer' (train p) (val p));
                                   CallTrain (main_trainer' (train p) (val p))]
    end.
Proof.
  unfold main.
  rewrite (bind_run _ _ _ _ _ (Tensor_to_run _ _ _)).
  rewrite (bind_run _ _ _ _ _ (AutoModel_from_pretrained_run _ _ _ _ _)).
  rewrite (bind_run _ _ _ _ _ (AutoTokenizer_from_pretrained_run _ _ _)).
  rewrite (bind_run _ _ _ _ _ (load_dataset_run _ _)).
  rewrite !emitted_emitted. simpl app.
  fold main_model main_tokenizer main_data_files'.
  change (disk (emitted w _)) with (disk w).
  destruct (loaded (disk w) main_data_files') as [raw0|e] eqn:Hraw; [|calls_prefix].
  rewrite (bind_run _ _ _ _ _ (DatasetDict_select_columns_run _ _ _)).
  rewrite !emitted_emitted. simpl app.
  destruct (result_mapM _ raw0) as [selected0|e] eqn:Hselected; [|calls_prefix].
  destruct (DatasetDict_map_run tokenizer_call convert_labels_fn selected0) as [r1 Hr1].
  rewrite (bind_run _ _ _ _ _ (Hr1 _)).
  rewrite !emitted_emitted. simpl app.
  destruct r1 as [converted0|e]; [|calls_prefix].
  destruct (DatasetDict_map_run tokenizer_call (tokenize_fn main_tokenizer) converted0)
    as [r2 Hr2].
  rewrite (bind_run _ _ _ _ _ (Hr2 _)).
  rewrite !emitted_emitted. simpl app.
  destruct r2 as [tokenized0|e]; [|calls_prefix].
  rewrite (bind_run _ _ _ _ _ (DatasetDict_shuffle_run _ _ _ _)).
  rewrite (bind_run _ _ _ _ _ (TrainingArguments_init_run _ _)).
  rewrite !emitted_emitted. simpl app.
  fold main_training_args'.
  rewrite (bind_run _ _ _ _ _ (lift_run _ _)).
  destruct (DatasetDict_getitem _ "train") as [train0|e] eqn:Htrain; [|calls_prefix].
  rewrite (bind_run _ _ _ _ _ (lift_run _ _)).
  destruct (DatasetDict_getitem _ "val") as [val0|e] eqn:Hval; [|calls_prefix].
  rewrite (bind_run _ _ _ _ _ (Trainer_init_run _ _ _)).
  rewrite Trainer_train_run.
  rewrite !emitted_emitted. simpl app.
  eexists. split; [reflexivity|]. simpl.
  exists (mkPipeline raw0 selected0 converted0 tokenized0
            ((λ kv, (kv.1, shuffle_rows 42 kv.2)) <$> tokenized0) train0 val0).
  split; [|reflexivity].
  unfold pipeline_of. simpl.
  split_and!; try done.
  - intros w0. by rewrite Hr1.
  - intros w0. by rewrite Hr2.
Qed.

Lemma setup_calls_no_trainer c t :
  c ∈ setup_calls' → c ≠ CallTrainerInit t ∧ c ≠ CallTrain t.
Proof.
  unfold setup_calls. rewrite !elem_of_cons, elem_of_nil.
  intros H. repeat destruct H as [->|H]; by try destruct H.
Qed.


(** *** Malformed rows in the files *)

Lemma result_mapM_Ok_elem {A B} (f : A → Result B) xs ys x :
  result_mapM f xs = Ok ys → x ∈ xs → ∃ y, y ∈ ys ∧ f x = Ok y.
Proof.
  intros Hrun Hx. apply result_mapM_Forall2 in Hrun.
  apply list_elem_of_lookup in Hx as [i Hi].
  destruct (Forall2_lookup_l _ _ _ _ _ Hrun Hi) as (y & Hy & Hfx).
  exists y. split; [|done]. by eapply list_elem_of_lookup_2.
Qed.

Lemma mapM_Ok_elem {A B} (f : A → M B) xs ys w w' x :
  mapM f xs w = (Ok ys, w') → x ∈ xs → ∃ y w1 w2, f x w1 = (Ok y, w2).
Proof.
  revert ys w w'. induction xs as [|x0 xs IH]; intros ys w w' Hrun Hx.
  - by apply elem_of_nil in Hx.
  - simpl in Hrun. unfold bind at 1 in Hrun.
    destruct (f x0 w) as [[y0|e] w1] eqn:Hx0; [|discriminate].
    apply elem_of_cons in Hx as [->|Hx]; [by exists y0, w, w1|].
    unfold bind at 1 in Hrun.
    destruct (mapM f xs w1) as [[ys'|e] w2] eqn:Hrest; [|discriminate].
    exact (IH _ _ _ Hrest Hx).
Qed.

Lemma convert_labels_rejects (examples : Batch) labels s w :
  examples !! "label" = Some labels →
  VStr s ∈ labels →
  malformed_label s →
  ∃ e, convert_labels examples w = (Err e, w).
Proof.
  intros Hl Hin [Hne1 Hne2]. rewrite (convert_labels_unfold _ _ _ Hl).
  destruct (result_mapM (dict_getitem label_table) labels) as [ids|e] eqn:Hrun;
    [|by exists e].
  destruct (result_mapM_Ok_elem _ _ _ _ Hrun Hin) as (i & _ & Hget). simpl in Hget.
  destruct (label_table !! s) as [i'|] eqn:Hs; [|discriminate].
  apply label_table_lookup in Hs. destruct Hs as [[-> _]|[-> _]]; congruence.
Qed.

Lemma map_batch_size_pos : (0 < map_batch_size)%nat.
Proof. unfold map_batch_size. lia. Qed.

Lemma batch_starts_cover rows k :
  (k < rows)%nat →
  ∃ start, start ∈ batch_starts rows ∧ (start ≤ k < start + map_batch_size)%nat.
Proof.
  intros Hk. pose proof map_batch_size_pos as Hpos.
  exists (k / map_batch_size * map_batch_size)%nat. split.
  - unfold batch_starts. apply list_elem_of_fmap. exists (k / map_batch_size)%nat.
    split; [done|]. apply elem_of_seq. split; [lia|]. rewrite Nat.add_0_l.
    apply Nat.Div0.div_lt_upper_bound.
    pose proof (Nat.div_mod_eq (rows + map_batch_size - 1) map_batch_size) as Hdm.
    pose proof (Nat.mod_upper_bound (rows + map_batch_size - 1) map_batch_size) as Hlt.
    lia.
  - pose proof (Nat.div_mod_eq k map_batch_size) as Hdm.
    pose proof (Nat.mod_upper_bound k map_batch_size) as Hlt.
    lia.
Qed.

Lemma Dataset_map_rejects ds w :
  has_malformed_label ds →
  ∃ e, Dataset_map tokenizer_call convert_labels_fn ds w = (Err e, w).
Proof.
  intros (labels & k & s & Hl & Hk & Hrows & Hbad).
  destruct (stateless_Dataset_map tokenizer_call convert_labels_fn ds) as [r Hr].
  rewrite Hr. destruct r as [ds'|e]; [exfalso|by exists e].
  specialize (Hr w). unfold Dataset_map in Hr.
  destruct (Nat.eqb_spec (num_rows ds) 0) as [Hz|_]; [lia|].
  unfold bind at 1 in Hr.
  destruct (mapM _ (batch_starts (num_rows ds)) w) as [[outs|e] w1] eqn:Hruns;
    [|discriminate].
  destruct (batch_starts_cover _ _ Hrows) as (start & Hstart & Hrange).
  destruct (mapM_Ok_elem _ _ _ _ _ _ Hruns Hstart) as (out & w2 & w3 & Hout).
  simpl in Hout. unfold bind at 1 in Hout.
  destruct (convert_labels_rejects
              (slice start map_batch_size (columns ds))
              (take map_batch_size (drop start labels)) s w2) as [e He].
  - unfold slice. by rewrite lookup_fmap, Hl.
  - apply (list_elem_of_lookup_2 _ (k - start)).
    rewrite lookup_take_lt, lookup_drop by lia.
    by replace (start + (k - start))%nat with k by lia.
  - done.
  - rewrite He in Hout. discriminate.
Qed.

Lemma DatasetDict_map_rejects (dd : DatasetDict) split ds w :
  (split, ds) ∈ dd →
  has_malformed_label ds →
  ∃ e, (DatasetDict_map tokenizer_call convert_labels_fn dd w).1 = Err e.
Proof.
  intros Hin Hbad.
  destruct (DatasetDict_map tokenizer_call convert_labels_fn dd w) as [[dd'|e] w1] eqn:Hrun;
    [exfalso|by exists e].
  unfold DatasetDict_map, bind at 1, emit in Hrun.
  destruct (mapM_Ok_elem _ _ _ _ _ _ Hrun Hin) as (y & w2 & w3 & Hy).
  simpl in Hy. unfold bind at 1 in Hy.
  destruct (Dataset_map_rejects ds w2 Hbad) as [e He].
  rewrite He in Hy. discriminate.
Qed.

Lemma Dataset_select_columns_label ds ds' :
  Dataset_select_columns ["text"; "label"] ds = Ok ds' →
  has_malformed_label ds → has_malformed_label ds'.
Proof.
  unfold Dataset_select_columns.
  destruct (forallb _ _); [|discriminate]. intros [= <-].
  intros (labels & k & s & Hl & Hk & Hrows & Hbad).
  exists labels, k, s. simpl. split_and!; [|done..].
  apply map_lookup_filter_Some. split; [done|]. simpl. set_solver.
Qed.

Lemma loaded_elem files data_files raw0 split path ds :
  loaded files data_files = Ok raw0 →
  (split, path) ∈ data_files →
  files !! path = Some ds →
  (split, ds) ∈ raw0.
Proof.
  intros Hraw Hin Hds.
  destruct (result_mapM_Ok_elem _ _ _ _ Hraw Hin) as (y & Hy & Hfy).
  simpl in Hfy. rewrite Hds in Hfy. by injection Hfy as <-.
Qed.

Lemma pipeline_rejects_malformed files p split path ds :
  pipeline_of' files p →
  (split, path) ∈ main_data_files' →
  files !! path = Some ds →
  has_malformed_label ds →
  False.
Proof.
  intros (Hraw & Hsel & Hconv & _) Hin Hds Hbad.
  pose proof (loaded_elem _ _ _ _ _ _ Hraw Hin Hds) as Hin_raw.
  specialize (Hsel (mkWorld ∅ [])). rewrite DatasetDict_select_columns_run in Hsel.
  simpl in Hsel.
  destruct (result_mapM_Ok_elem _ _ _ _ Hsel Hin_raw) as (y & Hy & Hfy).
  simpl in Hfy.
  destruct (Dataset_select_columns ["text"; "label"] ds) as [ds'|e] eqn:Hds';
    [|discriminate].
  simpl in Hfy. injection Hfy as <-.
  pose proof (Dataset_select_columns_label _ _ Hds' Hbad) as Hbad'.
  destruct (DatasetDict_map_rejects _ _ _ (mkWorld ∅ []) Hy Hbad') as [e He].
  rewrite Hconv in He. discriminate.
Qed.

(** C6: a label string other than "True" and "False" is no key of the table,
    so the subscript raises [KeyError]; [convert_labels] does not catch it
    (on a batch of string and integer cells it raises the [KeyError] of the
    first cell that is no key); and [main] does not either: when a row of
    the train or val file has such a label, [main] ends with an exception
    after the setup calls it got to, and never trains. *)
Theorem malformed_label_propagates :
  (∀ s, malformed_label s →
        dict_getitem label_table (VStr s) = Err (KeyError (VStr s))) ∧
  (∀ (examples : Batch) labels s w,
     examples !! "label" = Some labels →
     VStr s ∈ labels →
     malformed_label s →
     ∃ e, convert_labels examples w = (Err e, w) ∧
          (Forall scalar_cell labels →
           ∃ key, e = KeyError key ∧ key ∈ labels ∧
                  dict_getitem label_table key = Err (KeyError key))) ∧
  (∀ w split path ds,
     (split, path) ∈ main_data_files' →
     disk w !! path = Some ds →
     has_malformed_label ds →
     ∃ e new,
       (main' w).1 = Err e ∧
       log (main' w).2 = log w ++ new ∧
       new `prefix_of` setup_calls' ∧
       ∀ t, CallTrain t ∉ new).
Proof.
  assert (∀ s, malformed_label s →
               dict_getitem label_table (VStr s) = Err (KeyError (VStr s))) as Hkey.
  { intros s [Hne1 Hne2]. simpl.
    destruct (label_table !! s) as [i|] eqn:Hs; [|done].
    apply label_table_lookup in Hs. destruct Hs as [[-> _]|[-> _]]; congruence. }
  split_and!.
  - exact Hkey.
  - intros examples labels s w Hl Hin Hbad.
    destruct (convert_labels_rejects _ _ _ w Hl Hin Hbad) as [e He].
    exists e. split; [done|]. intros Hcells.
    destruct (result_mapM_getitem_error label_table labels (VStr s) Hcells Hin
                (Hkey s Hbad)) as (key & Hkey_in & Hget & Hrun).
    exists key. split_and!; [|done..].
    rewrite (convert_labels_unfold _ _ _ Hl), Hrun in He. simpl in He. congruence.
  - intros w split path ds Hin Hds Hbad.
    destruct (main_run w) as (new & Hw & Hnew).
    destruct (main' w).1 as [[]|e].
    + destruct Hnew as (p & Hp & _).
      destruct (pipeline_rejects_malformed _ _ _ _ _ Hp Hin Hds Hbad).
    + destruct Hnew as [Hprefix _]. exists e, new. split_and!; [done| |done|].
      * by rewrite Hw.
      * intros t Ht. destruct Hprefix as [rest Hrest].
        assert (CallTrain t ∈ setup_calls') as Hin'.
        { rewrite Hrest. apply elem_of_app. by left. }
        by destruct (setup_calls_no_trainer _ t Hin').
Qed.

(** *** The stages of a run *)

Lemma chunks_concat {A} (col : list A) k j :
  concat ((λ start, chunk start col) <$> ((λ i, i * map_batch_size)%nat <$> seq j k)) =
  take (k * map_batch_size) (drop (j * map_batch_size) col).
Proof.
  revert j. induction k as [|k IH]; intros j; [done|].
  cbn [seq fmap list_fmap concat]. rewrite IH. unfold chunk.
  replace (S j * map_batch_size)%nat with (j * map_batch_size + map_batch_size)%nat by lia.
  rewrite <- drop_drop, take_take_drop. f_equal; lia.
Qed.

Lemma batch_starts_concat {A} (col : list A) rows :
  length col = rows →
  concat ((λ start, chunk start col) <$> batch_starts rows) = col.
Proof.
  intros Hlen. unfold batch_starts. rewrite chunks_concat.
  rewrite Nat.mul_0_l, drop_0. apply take_ge.
  pose proof map_batch_size_pos as Hpos.
  pose proof (Nat.div_mod_eq (rows + map_batch_size - 1) map_batch_size) as Hdm.
  pose proof (Nat.mod_upper_bound (rows + map_batch_size - 1) map_batch_size) as Hlt.
  lia.
Qed.

Lemma batch_starts_nonempty rows : rows ≠ 0%nat → batch_starts rows ≠ [].
Proof.
  intros Hrows. pose proof map_batch_size_pos as Hpos. unfold batch_starts.
  assert (0 < (rows + map_batch_size - 1) / map_batch_size)%nat as Hk
    by (apply Nat.div_str_pos; lia).
  destruct ((rows + map_batch_size - 1) / map_batch_size)%nat; [lia|done].
Qed.

Lemma concat_batches_joined (bs : list Batch) name :
  concat_batches bs !! name = joined_column name bs.
Proof.
  unfold concat_batches, joined_column. induction bs as [|b bs IH]; simpl.
  - apply lookup_empty.
  - by rewrite lookup_union_with, IH.
Qed.

Lemma converted_batches (cols : Batch) labels starts outs :
  cols !! "label" = Some labels →
  Forall2 (λ start m, ∀ w0,
             bind (convert_labels (slice start map_batch_size cols))
               (λ out, ret (out ∪ slice start map_batch_size cols)) w0 = (Ok m, w0))
          starts outs →
  ∃ ids,
    Forall2 (λ v i, dict_getitem label_table v = Ok i)
      (concat ((λ start, chunk start labels) <$> starts)) ids ∧
    ∀ name, concat_batches outs !! name =
      match starts with
      | [] => None
      | _ :: _ =>
          if decide (name = "label") then Some (VInt <$> ids)
          else (λ col, concat ((λ start, chunk start col) <$> starts)) <$> cols !! name
      end.
Proof.
  intros Hl. induction 1 as [|start m starts outs Hm _ (ids' & Hids' & Hrest)].
  - exists []. split; [constructor|]. intros name. apply lookup_empty.
  - specialize (Hm (mkWorld ∅ [])). unfold bind at 1 in Hm.
    destruct (convert_labels _ _) as [[out|e] w1] eqn:Hc; [|discriminate].
    destruct (stateless_run _ _ _ _ (stateless_convert_labels _) Hc) as [-> _].
    injection Hm as <-.
    assert (slice start map_batch_size cols !! "label" = Some (chunk start labels))
      as Hslice by (unfold slice; by rewrite lookup_fmap, Hl).
    destruct (convert_labels_Ok_inv _ _ _ _ Hslice Hc) as (ids_s & -> & Hids_s).
    exists (ids_s ++ ids'). split.
    + simpl. by apply Forall2_app.
    + intros name. rewrite concat_batches_joined. unfold joined_column. simpl foldr.
      fold (joined_column name outs). rewrite <- concat_batches_joined, Hrest.
      rewrite <- insert_union_singleton_l.
      destruct (decide (name = "label")) as [->|Hne].
      * rewrite lookup_insert_eq. destruct starts as [|start' starts].
        -- simpl in Hids'. apply Forall2_nil_inv_l in Hids' as ->.
           simpl. by rewrite app_nil_r.
        -- simpl. by rewrite fmap_app.
      * rewrite lookup_insert_ne by done. unfold slice. rewrite lookup_fmap.
        destruct (cols !! name) as [col|]; destruct starts as [|start' starts]; simpl;
          try done.
        by rewrite app_nil_r.
Qed.

Lemma Dataset_map_convert_labels ds ds' w w' :
  well_formed ds →
  is_Some (columns ds !! "label") →
  Dataset_map tokenizer_call convert_labels_fn ds w = (Ok ds', w') →
  labels_converted ds ds'.
Proof.
  intros Hwf [labels Hl] Hrun. pose proof (Hwf _ _ Hl) as Hlen.
  unfold Dataset_map in Hrun.
  destruct (Nat.eqb_spec (num_rows ds) 0) as [Hz|Hnz].
  - injection Hrun as <- <-. split; [done|]. exists labels, [].
    rewrite Hz in Hlen. apply nil_length_inv in Hlen. subst labels.
    split_and!; [done|constructor|]. simpl. by rewrite insert_id.
  - unfold bind at 1 in Hrun.
    destruct (mapM _ _ w) as [[outs|e] w1] eqn:Hruns; [|discriminate].
    injection Hrun as <- <-. split; [done|].
    apply mapM_stateless_inv in Hruns as [-> Hall].
    2:{ intros start. apply stateless_bind; [apply stateless_convert_labels|].
        intros ?. apply stateless_ret. }
    destruct (converted_batches _ _ _ _ Hl Hall) as (ids & Hids & Hcols).
    rewrite (batch_starts_concat labels _ Hlen) in Hids.
    exists labels, ids. split_and!; [done..|]. simpl.
    apply map_eq. intros name. rewrite Hcols.
    pose proof (batch_starts_nonempty _ Hnz) as Hne.
    destruct (batch_starts (num_rows ds)) as [|start starts] eqn:Hstarts; [done|].
    rewrite <- Hstarts.
    destruct (decide (name = "label")) as [->|Hname].
    + by rewrite lookup_insert_eq.
    + rewrite lookup_insert_ne by done.
      destruct (columns ds !! name) as [col|] eqn:Hcol; [|done]. simpl.
      by rewrite (batch_starts_concat col _ (Hwf _ _ Hcol)).
Qed.

Lemma splitwise_names {A B} (R : A → B → Prop) dd dd' :
  splitwise R dd dd' → dd'.*1 = dd.*1.
Proof.
  induction 1 as [|kv kv' dd dd' [Hname _] _ IH]; [done|].
  rewrite !fmap_cons. by f_equal.
Qed.

Lemma DatasetDict_getitem_splits (dd : DatasetDict) :
  dd.*1 = ["train"; "val"] →
  ∃ t v, dd = [("train", t); ("val", v)] ∧
         DatasetDict_getitem dd "train" = Ok t ∧ DatasetDict_getitem dd "val" = Ok v.
Proof.
  destruct dd as [|[n1 t] [|[n2 v] [|? ?]]]; try discriminate.
  intros [= -> ->]. by exists t, v.
Qed.

Lemma loaded_splitwise files data_files raw0 :
  loaded files data_files = Ok raw0 →
  splitwise (λ path ds, files !! path = Some ds) data_files raw0.
Proof.
  intros Hraw. apply result_mapM_Forall2 in Hraw.
  eapply Forall2_impl; [exact Hraw|]. intros kv kv' Hkv. simpl in Hkv.
  destruct (files !! kv.2) as [ds|]; [|discriminate]. by injection Hkv as <-.
Qed.

Lemma Dataset_select_columns_spec names ds ds' :
  Dataset_select_columns names ds = Ok ds' → columns_selected names ds ds'.
Proof.
  unfold Dataset_select_columns.
  destruct (forallb _ names) eqn:Hall; [|discriminate]. intros [= <-].
  rewrite forallb_forall in Hall. split_and!; [done| |]; simpl.
  - intros name Hin. pose proof Hin as Hname.
    apply list_elem_of_In, Hall, bool_decide_eq_true in Hin as [col Hcol].
    exists col. split; [done|]. by apply map_lookup_filter_Some.
  - intros name Hout. apply map_lookup_filter_None. right. intros col _. exact Hout.
Qed.

Lemma select_columns_splitwise names (dd dd' : DatasetDict) :
  result_mapM (λ kv, result_bind (Dataset_select_columns names kv.2)
                       (λ ds, Ok (kv.1, ds))) dd = Ok dd' →
  splitwise (columns_selected names) dd dd'.
Proof.
  intros Hsel. apply result_mapM_Forall2 in Hsel.
  eapply Forall2_impl; [exact Hsel|]. intros kv kv' Hkv. simpl in Hkv.
  destruct (Dataset_select_columns names kv.2) as [ds|] eqn:Hds; [|discriminate].
  injection Hkv as <-. split; [done|]. by apply Dataset_select_columns_spec.
Qed.

Lemma columns_selected_well_formed names ds ds' :
  columns_selected names ds ds' → well_formed ds → well_formed ds'.
Proof.
  intros (Hrows & Hkeep & Hdrop) Hwf name col Hcol. rewrite Hrows.
  destruct (decide (name ∈ names)) as [Hin|Hout].
  - destruct (Hkeep _ Hin) as (col' & Hds & Hds').
    rewrite Hds' in Hcol. injection Hcol as <-. by apply (Hwf name).
  - by rewrite (Hdrop _ Hout) in Hcol.
Qed.

Lemma DatasetDict_map_splitwise fn dd dd' w w' :
  DatasetDict_map tokenizer_call fn dd w = (Ok dd', w') →
  splitwise (λ ds ds', ∀ w0, Dataset_map tokenizer_call fn ds w0 = (Ok ds', w0)) dd dd'.
Proof.
  unfold DatasetDict_map. unfold bind at 1, emit. intros Hrun.
  apply mapM_stateless_inv in Hrun as [_ Hall].
  2:{ intros kv. apply stateless_bind; [apply stateless_Dataset_map|].
      intros ?. apply stateless_ret. }
  eapply Forall2_impl; [exact Hall|]. intros kv kv' Hkv. simpl in Hkv.
  destruct (stateless_Dataset_map tokenizer_call fn kv.2) as [r Hr].
  specialize (Hkv (mkWorld ∅ [])). unfold bind in Hkv. rewrite Hr in Hkv.
  destruct r as [ds|e]; [|discriminate]. injection Hkv as <-. done.
Qed.

Lemma tokenized_batches tokenizer (cols : Batch) texts starts outs :
  cols !! "text" = Some texts →
  Forall2 (λ start m, ∀ w0,
             bind (tokenize tokenizer_call tokenizer (slice start map_batch_size cols))
               (λ out, ret (out ∪ slice start map_batch_size cols)) w0 = (Ok m, w0))
          starts outs →
  ∃ encodings,
    Forall2 (λ start encoding,
               tokenizer_call tokenizer (chunk start texts) true "max_length" = Ok encoding)
            starts encodings ∧
    outs = zip_with (λ start encoding, encoding ∪ slice start map_batch_size cols)
             starts encodings.
Proof.
  intros Ht. induction 1 as [|start m starts outs Hm _ (encodings & Hencs & ->)].
  - by exists [].
  - specialize (Hm (mkWorld ∅ [])). unfold bind at 1 in Hm.
    rewrite (tokenize_unfold _ _ _ (chunk start texts)) in Hm
      by (unfold slice; by rewrite lookup_fmap, Ht).
    destruct (tokenizer_call _ _ _ _) as [encoding|e] eqn:Henc; [|discriminate].
    injection Hm as <-. exists (encoding :: encodings). split; [by constructor|done].
Qed.

Lemma Dataset_map_tokenize tokenizer ds ds' w w' :
  Dataset_map tokenizer_call (tokenize_fn tokenizer) ds w = (Ok ds', w') →
  texts_tokenized tokenizer_call tokenizer ds ds'.
Proof.
  unfold Dataset_map. intros Hrun.
  destruct (Nat.eqb_spec (num_rows ds) 0) as [Hz|Hnz].
  - injection Hrun as <- <-. split_and!; [done..|]. intros Hnz. by destruct Hnz.
  - unfold bind at 1 in Hrun.
    destruct (mapM _ _ w) as [[outs|e] w1] eqn:Hruns; [|discriminate].
    injection Hrun as <- <-. split_and!; [done|intros Hz; by destruct Hnz|]. intros _.
    apply mapM_stateless_inv in Hruns as [_ Hall].
    2:{ intros start. apply stateless_bind; [apply stateless_apply_map_fn|].
        intros ?. apply stateless_ret. }
    assert (∃ texts, columns ds !! "text" = Some texts) as [texts Ht].
    { pose proof (batch_starts_nonempty _ Hnz) as Hne.
      destruct Hall as [|start m starts outs' Hm _]; [done|].
      destruct (columns ds !! "text") as [texts|] eqn:Ht; [by exists texts|exfalso].
      specialize (Hm (mkWorld ∅ [])). cbv zeta in Hm.
      unfold apply_map_fn, tokenize, bind, lift, batch_getitem, dict_getitem in Hm.
      assert (slice start map_batch_size (columns ds) !! "text" = None) as Hs
        by (unfold slice; by rewrite lookup_fmap, Ht).
      rewrite Hs in Hm. discriminate. }
    destruct (tokenized_batches _ _ _ _ _ Ht Hall) as (encodings & Hencs & ->).
    exists texts, encodings. split_and!; [done..|]. intros name. simpl.
    apply concat_batches_joined.
Qed.

Lemma main_cases w :
  (∃ e, loaded (disk w) main_data_files' = Err e ∧
        main' w = (Err e, emitted w (take 4 setup_calls'))) ∨
  (∃ raw0 e,
     loaded (disk w) main_data_files' = Ok raw0 ∧
     (∀ w0, (DatasetDict_select_columns ["text"; "label"] raw0 w0).1 = Err e) ∧
     main' w = (Err e, emitted w (take 5 setup_calls'))) ∨
  (∃ raw0 selected0 e,
     loaded (disk w) main_data_files' = Ok raw0 ∧
     (∀ w0, (DatasetDict_select_columns ["text"; "label"] raw0 w0).1 = Ok selected0) ∧
     (∀ w0, (DatasetDict_map tokenizer_call convert_labels_fn selected0 w0).1 = Err e) ∧
     main' w = (Err e, emitted w (take 6 setup_calls'))) ∨
  (∃ raw0 selected0 converted0 e,
     loaded (disk w) main_data_files' = Ok raw0 ∧
     (∀ w0, (DatasetDict_select_columns ["text"; "label"] raw0 w0).1 = Ok selected0) ∧
     (∀ w0, (DatasetDict_map tokenizer_call convert_labels_fn selected0 w0).1 =
              Ok converted0) ∧
     (∀ w0, (DatasetDict_map tokenizer_call (tokenize_fn main_tokenizer) converted0 w0).1 =
              Err e) ∧
     main' w = (Err e, emitted w (take 7 setup_calls'))) ∨
  (∃ p, pipeline_of' (disk w) p ∧
        main' w =
          (Ok tt, emitted w (setup_calls' ++
                             [CallTrainerInit (main_trainer' (train p) (val p));
                              CallTrain (main_trainer' (train p) (val p))]))).
Proof.
  unfold main.
  rewrite (bind_run _ _ _ _ _ (Tensor_to_run _ _ _)).
  rewrite (bind_run _ _ _ _ _ (AutoModel_from_pretrained_run _ _ _ _ _)).
  rewrite (bind_run _ _ _ _ _ (AutoTokenizer_from_pretrained_run _ _ _)).
  rewrite (bind_run _ _ _ _ _ (load_dataset_run _ _)).
  rewrite !emitted_emitted. simpl app.
  fold main_model main_tokenizer main_data_files'.
  change (disk (emitted w _)) with (disk w).
  destruct (loaded (disk w) main_data_files') as [raw0|e] eqn:Hraw;
    [right|left; by exists e].
  rewrite (bind_run _ _ _ _ _ (DatasetDict_select_columns_run _ _ _)).
  rewrite !emitted_emitted. simpl app.
  destruct (result_mapM _ raw0) as [selected0|e] eqn:Hselected; [right|left].
  2:{ exists raw0, e. split_and!; [done| |done].
      intros w0. rewrite DatasetDict_select_columns_run. exact Hselected. }
  destruct (DatasetDict_map_run tokenizer_call convert_labels_fn selected0) as [r1 Hr1].
  rewrite (bind_run _ _ _ _ _ (Hr1 _)).
  rewrite !emitted_emitted. simpl app.
  destruct r1 as [converted0|e]; [right|left].
  2:{ exists raw0, selected0, e. split_and!; [done| | |done].
      - intros w0. rewrite DatasetDict_select_columns_run. exact Hselected.
      - intros w0. by rewrite Hr1. }
  destruct (DatasetDict_map_run tokenizer_call (tokenize_fn main_tokenizer) converted0)
    as [r2 Hr2].
  rewrite (bind_run _ _ _ _ _ (Hr2 _)).
  rewrite !emitted_emitted. simpl app.
  destruct r2 as [tokenized0|e]; [right|left].
  2:{ exists raw0, selected0, converted0, e. split_and!; [done| | | |done].
      - intros w0. rewrite DatasetDict_select_columns_run. exact Hselected.
      - intros w0. by rewrite Hr1.
      - intros w0. by rewrite Hr2. }
  assert (tokenized0.*1 = ["train"; "val"]) as Hnames.
  { rewrite (splitwise_names _ _ _ (DatasetDict_map_splitwise _ _ _ _ _ (Hr2 w))).
    rewrite (splitwise_names _ _ _ (DatasetDict_map_splitwise _ _ _ _ _ (Hr1 w))).
    rewrite (splitwise_names _ _ _ (select_columns_splitwise _ _ _ Hselected)).
    by rewrite (splitwise_names _ _ _ (loaded_splitwise _ _ _ Hraw)). }
  destruct (DatasetDict_getitem_splits _ Hnames) as (t & v & Htok & _ & _).
  rewrite (bind_run _ _ _ _ _ (DatasetDict_shuffle_run _ _ _ _)).
  rewrite (bind_run _ _ _ _ _ (TrainingArguments_init_run _ _)).
  rewrite !emitted_emitted. simpl app.
  fold main_training_args'.
  assert (DatasetDict_getitem ((λ kv, (kv.1, shuffle_rows 42 kv.2)) <$> tokenized0) "train"
          = Ok (shuffle_rows 42 t)) as Htrain by (by rewrite Htok).
  assert (DatasetDict_getitem ((λ kv, (kv.1, shuffle_rows 42 kv.2)) <$> tokenized0) "val"
          = Ok (shuffle_rows 42 v)) as Hval by (by rewrite Htok).
  rewrite (bind_run _ _ _ _ _ (lift_run _ _)), Htrain.
  rewrite (bind_run _ _ _ _ _ (lift_run _ _)), Hval.
  rewrite (bind_run _ _ _ _ _ (Trainer_init_run _ _ _)).
  rewrite Trainer_train_run.
  rewrite !emitted_emitted. simpl app.
  exists (mkPipeline raw0 selected0 converted0 tokenized0
            ((λ kv, (kv.1, shuffle_rows 42 kv.2)) <$> tokenized0)
            (shuffle_rows 42 t) (shuffle_rows 42 v)).
  split; [|reflexivity].
  unfold pipeline_of. simpl.
  split_and!; try done.
  - intros w0. by rewrite Hr1.
  - intros w0. by rewrite Hr2.
Qed.


Lemma selected_splits_have names (raw0 selected0 : DatasetDict) name :
  name ∈ names →
  splitwise (columns_selected names) raw0 selected0 →
  Forall (λ kv, is_Some (columns kv.2 !! name)) selected0.
Proof.
  intros Hin. induction 1 as [|kv kv' dd dd' [_ (_ & Hkeep & _)] _ IH]; constructor; [|done].
  destruct (Hkeep _ Hin) as (col & _ & Hcol). by exists col.
Qed.

Lemma pipeline_stages files p :
  pipeline_of' files p →
  splitwise (λ path ds, files !! path = Some ds) main_data_files' (raw p) ∧
  splitwise (columns_selected ["text"; "label"]) (raw p) (selected p) ∧
  splitwise (λ ds ds', well_formed ds → labels_converted ds ds')
    (selected p) (converted p) ∧
  splitwise (texts_tokenized tokenizer_call main_tokenizer) (converted p) (tokenized p) ∧
  ∃ t v, tokenized p = [("train", t); ("val", v)] ∧
         shuffled p = [("train", shuffle_rows 42 t); ("val", shuffle_rows 42 v)] ∧
         train p = shuffle_rows 42 t ∧ val p = shuffle_rows 42 v.
Proof.
  intros (Hraw & Hsel & Hconv & Htok & Hshuf & Htrain & Hval).
  apply loaded_splitwise in Hraw.
  specialize (Hsel (mkWorld ∅ [])). rewrite DatasetDict_select_columns_run in Hsel.
  apply select_columns_splitwise in Hsel.
  specialize (Hconv (mkWorld ∅ [])).
  destruct (DatasetDict_map _ convert_labels_fn _ _) as [r1 w1] eqn:Hrun1.
  simpl in Hconv. subst r1. apply DatasetDict_map_splitwise in Hrun1.
  specialize (Htok (mkWorld ∅ [])).
  destruct (DatasetDict_map _ (tokenize_fn _) _ _) as [r2 w2] eqn:Hrun2.
  simpl in Htok. subst r2. apply DatasetDict_map_splitwise in Hrun2.
  specialize (Hshuf (mkWorld ∅ [])). rewrite DatasetDict_shuffle_run in Hshuf.
  injection Hshuf as Hshuf.
  assert ((tokenized p).*1 = ["train"; "val"]) as Hnames.
  { rewrite (splitwise_names _ _ _ Hrun2), (splitwise_names _ _ _ Hrun1).
    by rewrite (splitwise_names _ _ _ Hsel), (splitwise_names _ _ _ Hraw). }
  destruct (DatasetDict_getitem_splits _ Hnames) as (t & v & Htv & _ & _).
  split_and!; [done..| | |].
  - assert ("label" ∈ ["text"; "label"]) as Hin by set_solver.
    pose proof (selected_splits_have _ _ _ _ Hin Hsel) as Hlabels.
    clear -Hrun1 Hlabels. induction Hrun1 as [|kv kv' dd dd' [Hname Hmap] _ IH].
    + constructor.
    + apply Forall_cons in Hlabels as [Hlabel Hlabels]. constructor; [|by apply IH].
      split; [done|]. intros Hwf.
      exact (Dataset_map_convert_labels _ _ _ _ Hwf Hlabel (Hmap (mkWorld ∅ []))).
  - eapply Forall2_impl; [exact Hrun2|]. intros kv kv' [Hname Hmap]. split; [done|].
    exact (Dataset_map_tokenize _ _ _ _ _ (Hmap (mkWorld ∅ []))).
  - exists t, v. rewrite <- Hshuf, Htv in *. split_and!; [done..| |].
    + by injection Htrain.
    + by injection Hval.
Qed.

Lemma take_setup_calls_prefix n : take n setup_calls' `prefix_of` setup_calls'.
Proof. exists (drop n setup_calls'). by rewrite take_drop. Qed.

(** C7: [main] runs its steps in this order, and each on the result of the
    one before.  In every run the framework calls made are, in order, a
    prefix of: the loading calls, the map of [convert_labels], the map of
    [tokenize], the shuffle, the training arguments, and then the
    construction and the run of the trainer; no run stops before the load,
    and none changes the disk.  [main] returns exactly when the load, the
    selection and the two maps all return; a run that raises ended in the
    first of these four that raises, with its exception, right after the
    call of that step.  In a run that returns, split by split: the files
    are loaded, cut down to [text] and [label], the labels are replaced by
    their integers (on a dataset whose columns are as long as it has rows),
    then the tokenizer [main] loaded goes over the texts of the converted
    dataset, then the rows are shuffled with seed 42, and the trainer gets
    the shuffled train and val splits together with the training
    arguments. *)
Theorem main_pipeline_order w :
  ∃ new,
    log (main' w).2 = log w ++ new ∧
    setup_calls' =
      take 5 setup_calls' ++
      [CallMap convert_labels_fn; CallMap (tokenize_fn main_tokenizer); CallShuffle 42] ++
      drop 8 setup_calls' ∧
    match (main' w).1 with
    | Err _ => new `prefix_of` setup_calls'
    | Ok _ =>
        ∃ p, pipeline_of' (disk w) p ∧
             new = setup_calls' ++ [CallTrainerInit (main_trainer' (train p) (val p));
                                   CallTrain (main_trainer' (train p) (val p))]
    end ∧
    (main' w).2 = emitted w new ∧
    (4 ≤ length new)%nat ∧
    ((main' w).1 = Ok tt ↔ ∃ p, pipeline_of' (disk w) p) ∧
    (∀ e, (main' w).1 = Err e →
       (loaded (disk w) main_data_files' = Err e ∧ new = take 4 setup_calls') ∨
       (∃ raw0,
          loaded (disk w) main_data_files' = Ok raw0 ∧
          (∀ w0, (DatasetDict_select_columns ["text"; "label"] raw0 w0).1 = Err e) ∧
          new = take 5 setup_calls') ∨
       (∃ raw0 selected0,
          loaded (disk w) main_data_files' = Ok raw0 ∧
          (∀ w0, (DatasetDict_select_columns ["text"; "label"] raw0 w0).1 =
                   Ok selected0) ∧
          (∀ w0, (DatasetDict_map tokenizer_call convert_labels_fn selected0 w0).1 =
                   Err e) ∧
          new = take 6 setup_calls') ∨
       (∃ raw0 selected0 converted0,
          loaded (disk w) main_data_files' = Ok raw0 ∧
          (∀ w0, (DatasetDict_select_columns ["text"; "label"] raw0 w0).1 =
                   Ok selected0) ∧
          (∀ w0, (DatasetDict_map tokenizer_call convert_labels_fn selected0 w0).1 =
                   Ok converted0) ∧
          (∀ w0, (DatasetDict_map tokenizer_call (tokenize_fn main_tokenizer)
                    converted0 w0).1 = Err e) ∧
          new = take 7 setup_calls')) ∧
    (∀ p, pipeline_of' (disk w) p →
       splitwise (λ path ds, disk w !! path = Some ds) main_data_files' (raw p) ∧
       splitwise (columns_selected ["text"; "label"]) (raw p) (selected p) ∧
       splitwise (λ ds ds', well_formed ds → labels_converted ds ds')
         (selected p) (converted p) ∧
       splitwise (texts_tokenized tokenizer_call main_tokenizer)
         (converted p) (tokenized p) ∧
       ∃ t v, tokenized p = [("train", t); ("val", v)] ∧
              shuffled p = [("train", shuffle_rows 42 t); ("val", shuffle_rows 42 v)] ∧
              train p = shuffle_rows 42 t ∧ val p = shuffle_rows 42 v).
Proof.
  destruct (main_cases w)
    as [(e & Hl & Hrun)
       |[(raw0 & e & Hl & Hs & Hrun)
        |[(raw0 & selected0 & e & Hl & Hs & Hc & Hrun)
         |[(raw0 & selected0 & converted0 & e & Hl & Hs & Hc & Ht & Hrun)
          |(p & Hp & Hrun)]]]];
    rewrite Hrun; simpl.
  - exists (take 4 setup_calls').
    split_and!; [done|done|apply take_setup_calls_prefix|done|simpl; lia| | |].
    + split; [discriminate|]. intros (p & Hraw & _). congruence.
    + intros e' [= <-]. by left.
    + apply pipeline_stages.
  - exists (take 5 setup_calls').
    split_and!; [done|done|apply take_setup_calls_prefix|done|simpl; lia| | |].
    + split; [discriminate|]. intros (p & Hraw & Hsel & _).
      rewrite Hraw in Hl. injection Hl as <-.
      specialize (Hs w). rewrite Hsel in Hs. discriminate.
    + intros e' [= <-]. right. left. by exists raw0.
    + apply pipeline_stages.
  - exists (take 6 setup_calls').
    split_and!; [done|done|apply take_setup_calls_prefix|done|simpl; lia| | |].
    + split; [discriminate|]. intros (p & Hraw & Hsel & Hconv & _).
      rewrite Hraw in Hl. injection Hl as <-.
      specialize (Hs w). rewrite Hsel in Hs. injection Hs as <-.
      specialize (Hc w). rewrite Hconv in Hc. discriminate.
    + intros e' [= <-]. right. right. left. by exists raw0, selected0.
    + apply pipeline_stages.
  - exists (take 7 setup_calls').
    split_and!; [done|done|apply take_setup_calls_prefix|done|simpl; lia| | |].
    + split; [discriminate|]. intros (p & Hraw & Hsel & Hconv & Htok & _).
      rewrite Hraw in Hl. injection Hl as <-.
      specialize (Hs w). rewrite Hsel in Hs. injection Hs as <-.
      specialize (Hc w). rewrite Hconv in Hc. injection Hc as <-.
      specialize (Ht w). rewrite Htok in Ht. discriminate.
    + intros e' [= <-]. right. right. right. by exists raw0, selected0, converted0.
    + apply pipeline_stages.
  - eexists. split_and!; [done|done| |done|simpl; lia| |discriminate|].
    + by exists p.
    + split; [by exists p|done].
    + apply pipeline_stages.
Qed.

End MainProperties.

(** ** Concrete runs *)

Example toy_main_returns :
  (toy_main (toy_world toy_val)).1 = Ok tt ∧
  length (log (toy_main (toy_world toy_val)).2) = 11%nat.
Proof. vm_compute. done. Qed.

Example toy_main_raises :
  (toy_main (toy_world toy_val_malformed)).1 = Err (KeyError (VStr "Maybe")) ∧
  log (toy_main (toy_world toy_val_malformed)).2 = take 6 (setup_calls "data" "models" "cpu").
Proof. vm_compute. done. Qed.

Lemma label_mapping_bijective_witness :
  ∃ ids,
    convert_labels {[ "label" := [VStr "True"; VStr "False"; VStr "True"] ]}
      (toy_world toy_val) =
      (Ok {[ "label" := VInt <$> ids ]}, toy_world toy_val) ∧
    length ids = 3%nat ∧
    ∀ k s, [VStr "True"; VStr "False"; VStr "True"] !! k = Some (VStr s) →
      ∃ i, ids !! k = Some i ∧ label_table !! s = Some i ∧ id2label !! i = Some s.
Proof.
  destruct label_mapping_bijective as (_ & _ & _ & _ & _ & _ & H).
  apply (H {[ "label" := [VStr "True"; VStr "False"; VStr "True"] ]}
           [VStr "True"; VStr "False"; VStr "True"] (toy_world toy_val)).
  - reflexivity.
  - repeat constructor; by right.
Defined.

Lemma tokenize_fixed_length_witness :
  ∃ ids masks,
    tokenize (tokenizer_call_model toy_tokens)
      (mkTokenizer "distilbert/distilbert-base-uncased" 512)
      {[ "text" := [VStr "notes"] ]} (toy_world toy_val) =
      (Ok {[ "input_ids" := ids; "attention_mask" := masks ]}, toy_world toy_val) ∧
    length ids = 1%nat ∧
    length masks = 1%nat ∧
    ∀ k s, [VStr "notes"] !! k = Some (VStr s) →
      ∃ l m, ids !! k = Some (VInts l) ∧ masks !! k = Some (VInts m) ∧
             length l = 512%nat ∧ length m = 512%nat ∧
             ((512 ≤ length (toy_tokens s))%nat → l = take 512 (toy_tokens s)) ∧
             ((length (toy_tokens s) ≤ 512)%nat →
                l = toy_tokens s ++ replicate (512 - length (toy_tokens s)) pad_token_id).
Proof.
  apply (tokenize_fixed_length toy_tokens
           (mkTokenizer "distilbert/distilbert-base-uncased" 512)
           {[ "text" := [VStr "notes"] ]} [VStr "notes"] (toy_world toy_val)).
  - reflexivity.
  - reflexivity.
  - repeat constructor. by exists "notes".
Defined.

Lemma malformed_label_propagates_witness :
  ∃ e new,
    (toy_main (toy_world toy_val_malformed)).1 = Err e ∧
    log (toy_main (toy_world toy_val_malformed)).2 =
      log (toy_world toy_val_malformed) ++ new ∧
    new `prefix_of` setup_calls "data" "models" "cpu" ∧
    ∀ t, CallTrain t ∉ new.
Proof.
  destruct (malformed_label_propagates (tokenizer_call_model toy_tokens) toy_shuffle
              "data" "models" "cpu") as (_ & _ & H).
  apply (H (toy_world toy_val_malformed) "val" "data/finetuning/val.jsonl"
           toy_val_malformed).
  - unfold main_data_files. rewrite !elem_of_cons. right. left. reflexivity.
  - reflexivity.
  - exists [VStr "Maybe"], 0%nat, "Maybe". split_and!.
    + reflexivity.
    + reflexivity.
    + simpl. lia.
    + split; intros [=].
Defined.

(** * Further properties *)

(** ** More on [compute_metrics] *)

Lemma first_argmax_unique row p p' :
  first_argmax row p → first_argmax row p' → p = p'.
Proof.
  intros [[Hp Hbefore]|(v & Hp & Hno & Hall & Hbefore)]
         [[Hp' Hbefore']|(v' & Hp' & Hno' & Hall' & Hbefore')].
  - destruct (Nat.lt_trichotomy p p') as [Hlt|[Heq|Hgt]]; [exfalso|done|exfalso].
    + by apply (Hbefore' _ _ Hlt Hp).
    + by apply (Hbefore _ _ Hgt Hp').
  - exfalso. apply Hno'. by eapply list_elem_of_lookup_2.
  - exfalso. apply Hno. by eapply list_elem_of_lookup_2.
  - destruct (Nat.lt_trichotomy p p') as [Hlt|[Heq|Hgt]]; [exfalso|done|exfalso].
    + pose proof (Hbefore' _ _ Hlt Hp) as Hstrict.
      pose proof (Hall _ _ Hp') as Hle. congruence.
    + pose proof (Hbefore _ _ Hgt Hp') as Hstrict.
      pose proof (Hall' _ _ Hp) as Hle. congruence.
Qed.

(** X1: [np.argmax] on a row of floats, as [compute_metrics] uses it,
    returns [p] exactly when [p] is the index of the first NaN of the row
    or, the row having no NaN, of its first greatest entry: on a tie the
    earliest index wins, and the index is within the row. *)
Theorem argmax_iff_first_argmax (row : list Float) (p : nat) :
  argmax row = Ok p ↔ first_argmax row p.
Proof.
  split.
  - intros Hrun. destruct row as [|x row]; [discriminate|].
    destruct (argmax_first_argmax (x :: row)) as (p' & Hp' & Hfirst); [done|].
    congruence.
  - intros Hfirst.
    assert (row ≠ []) as Hne.
    { intros ->. destruct Hfirst as [[Hp _]|(v & Hp & _)]; by rewrite lookup_nil in Hp. }
    destruct (argmax_first_argmax row Hne) as (p' & Hp' & Hfirst').
    by rewrite (first_argmax_unique _ _ _ Hfirst Hfirst').
Qed.

Lemma argmax_last_axis_empty_row logits :
  [] ∈ logits → argmax_last_axis logits = Err ValueError.
Proof.
  unfold argmax_last_axis. induction logits as [|row logits IH]; intros Hin.
  - by apply elem_of_nil in Hin.
  - destruct row as [|x row]; [done|].
    apply elem_of_cons in Hin as [[=]|Hin]. simpl. by rewrite (IH Hin).
Qed.

Section MoreMetricsProperties.

Context {Score : Type} (metric_compute : Metric → list nat → list Z → Result Score).

Local Abbreviation compute_metrics' := (compute_metrics Score metric_compute).

(** X2: [compute_metrics] returns exactly when the argmax and all four
    metrics do, and what it returns is then the dict of the four scores
    under the keys "accuracy", "f1", "precision" and "recall": no key more or
    less, whatever the inputs. *)
Theorem compute_metrics_returns_iff (logits : list (list Float)) (labels : list Z)
    (scores : gmap string Score) :
  compute_metrics' (logits, labels) = Ok scores ↔
  ∃ predictions s1 s2 s3 s4,
    argmax_last_axis logits = Ok predictions ∧
    metric_compute accuracy_metric predictions labels = Ok s1 ∧
    metric_compute f1_metric predictions labels = Ok s2 ∧
    metric_compute precision_metric predictions labels = Ok s3 ∧
    metric_compute recall_metric predictions labels = Ok s4 ∧
    scores = {[ "accuracy" := s1; "f1" := s2; "precision" := s3; "recall" := s4 ]} ∧
    dom scores = ({[ "accuracy"; "f1"; "precision"; "recall" ]} : gset string).
Proof.
  split.
  - unfold compute_metrics.
    destruct (argmax_last_axis logits) as [predictions|e] eqn:Hpred; simpl;
      [|discriminate].
    destruct (metric_compute accuracy_metric predictions labels) as [s1|e1] eqn:H1;
      simpl; [|discriminate].
    destruct (metric_compute f1_metric predictions labels) as [s2|e2] eqn:H2;
      simpl; [|discriminate].
    destruct (metric_compute precision_metric predictions labels) as [s3|e3] eqn:H3;
      simpl; [|discriminate].
    destruct (metric_compute recall_metric predictions labels) as [s4|e4] eqn:H4;
      simpl; [|discriminate].
    rewrite four_scores_in_order. intros [= <-]. exists predictions, s1, s2, s3, s4.
    split_and!; [done..|]. rewrite !dom_insert_L, dom_singleton_L. set_solver.
  - intros (predictions & s1 & s2 & s3 & s4 & Hpred & H1 & H2 & H3 & H4 & -> & _).
    unfold compute_metrics. rewrite Hpred. simpl.
    rewrite H1. simpl. rewrite H2. simpl. rewrite H3. simpl. rewrite H4. simpl.
    by rewrite four_scores_in_order.
Qed.

(** X3: the exception [compute_metrics] raises is the first one met: the
    [ValueError] of the argmax when a row of logits is empty, whatever the
    metrics would do; otherwise the exception of the first metric, in the
    order accuracy, f1, precision, recall, that raises. *)
Theorem compute_metrics_first_exception (logits : list (list Float))
    (labels : list Z) :
  ([] ∈ logits → compute_metrics' (logits, labels) = Err ValueError) ∧
  (∀ predictions before name metric after e,
     argmax_last_axis logits = Ok predictions →
     metrics = before ++ (name, metric) :: after →
     Forall (λ item, ∃ s, metric_compute item.2 predictions labels = Ok s) before →
     metric_compute metric predictions labels = Err e →
     compute_metrics' (logits, labels) = Err e).
Proof.
  split.
  - intros Hin. unfold compute_metrics.
    by rewrite (argmax_last_axis_empty_row _ Hin).
  - intros predictions before name metric after e Hpred Hsplit Hbefore Herr.
    unfold compute_metrics. rewrite Hpred, Hsplit. simpl.
    by apply (dict_comprehension_first_error
                (λ m, metric_compute m predictions labels)).
Qed.

End MoreMetricsProperties.

Lemma compute_metrics_first_exception_witness :
  compute_metrics Z f1_unavailable ([[FNum (1 # 2); FNum (3 # 2)]], [1]) =
    Err TypeError.
Proof.
  destruct (compute_metrics_first_exception f1_unavailable
              [[FNum (1 # 2); FNum (3 # 2)]] [1]) as [_ H].
  apply (H [1%nat] [("accuracy", accuracy_metric)] "f1" f1_metric
           [("precision", precision_metric); ("recall", recall_metric)]).
  - reflexivity.
  - reflexivity.
  - repeat constructor. by eexists.
  - reflexivity.
Defined.

(** X5: on the two logits of this classifier the prediction is class 1,
    "True", exactly when the first logit is not NaN and the second is NaN or
    strictly greater than the first; otherwise, so also on a tie, it is
    class 0, "False". *)
Theorem argmax_binary (a b : Float) :
  ∃ p, argmax [a; b] = Ok p ∧
       (id2label !! Z.of_nat p = Some "True" ↔
        a ≠ FNaN ∧ (b = FNaN ∨ float_ltb a b = true)) ∧
       (id2label !! Z.of_nat p = Some "False" ↔
        a = FNaN ∨ float_leb b a = true).
Proof.
  simpl. destruct (isnan a) eqn:Ha.
  { exists 0%nat. destruct a; try discriminate. split_and!; [done| |].
    - split; [by intros [=]|]. by intros [? _].
    - split; [by left|done]. }
  assert (a ≠ FNaN) as Hna by (by intros ->).
  destruct (float_leb b a) eqn:Hba.
  - exists 0%nat. split_and!; [done| |].
    + split; [by intros [=]|]. intros [_ [->|Hlt]]; [done|].
      unfold float_ltb in Hlt. rewrite Hba in Hlt.
      by rewrite andb_false_r in Hlt.
    + split; [by right|done].
  - exists 1%nat. split_and!.
    + by destruct (isnan b).
    + split; [|done]. intros _. split; [done|].
      destruct (isnan b) eqn:Hb; [left; by destruct b|right].
      assert (b ≠ FNaN) as Hnb by (by intros ->).
      unfold float_ltb. by rewrite (float_leb_total _ _ Hnb Hna Hba), Hba.
    + split; [by intros [=]|]. intros [?|?]; [done|congruence].
Qed.

(** ** More on [TrainerWithCustomLoss] *)

Section MoreCustomLossProperties.

Context {Tensor Outputs Loss : Type} (Outputs_logits : Outputs → Tensor).

Local Abbreviation compute_loss' := (compute_loss Tensor Outputs Loss Outputs_logits).

(** X6: on [inputs] without a ["labels"] key [compute_loss] raises
    [KeyError] for that key, whatever the model and the loss function are,
    and leaves [inputs] as it was. *)
Theorem compute_loss_missing_labels (self : TrainerWithCustomLoss Tensor Loss)
    (model : gmap string Tensor → Outputs) (inputs : gmap string Tensor)
    (return_outputs : bool) :
  inputs !! "labels" = None →
  compute_loss' self model inputs return_outputs =
    (Err (KeyError (VStr "labels")), inputs).
Proof.
  intros Hnone. unfold compute_loss, dict_pop. by rewrite Hnone.
Qed.

(** X7: a second [compute_loss] on the same [inputs] dict always fails: the
    first call, whether it returned or raised, leaves the dict without
    ["labels"], so the next one raises [KeyError] and changes nothing
    more. *)
Theorem compute_loss_twice (self self' : TrainerWithCustomLoss Tensor Loss)
    (model model' : gmap string Tensor → Outputs) (inputs : gmap string Tensor)
    (return_outputs return_outputs' : bool) :
  let after := (compute_loss' self model inputs return_outputs).2 in
  compute_loss' self' model' after return_outputs' =
    (Err (KeyError (VStr "labels")), after).
Proof.
  unfold compute_loss, dict_pop.
  destruct (inputs !! "labels") as [labels|] eqn:Hl; simpl.
  - by rewrite lookup_delete_eq.
  - by rewrite Hl.
Qed.

(** X8: the model never sees the labels: two models that agree on every
    keyword dict without a ["labels"] entry give the same loss, the same
    outputs and the same dict afterwards, whatever they would do with
    labels. *)
Theorem compute_loss_hides_labels (self : TrainerWithCustomLoss Tensor Loss)
    (model1 model2 : gmap string Tensor → Outputs) (inputs : gmap string Tensor)
    (return_outputs : bool) :
  (∀ kwargs, kwargs !! "labels" = None → model1 kwargs = model2 kwargs) →
  compute_loss' self model1 inputs return_outputs =
    compute_loss' self model2 inputs return_outputs.
Proof.
  intros Hagree. unfold compute_loss, dict_pop.
  destruct (inputs !! "labels") as [labels|]; [|done].
  by rewrite (Hagree (delete "labels" inputs) (lookup_delete_eq _ _)).
Qed.

(** X9: the loss function handed to the constructor is the one
    [compute_loss] applies: a trainer built by [TrainerWithCustomLoss] from
    [fn] and keyword arguments keeps those arguments for the base class, and
    its loss is [fn] of the logits and the labels. *)
Theorem custom_loss_fn_is_used (fn : Tensor → Tensor → Loss) (kwargs : TrainerKwargs)
    (w : World) (model : gmap string Tensor → Outputs) (inputs : gmap string Tensor)
    (labels : Tensor) (return_outputs : bool) :
  inputs !! "labels" = Some labels →
  ∃ self,
    TrainerWithCustomLoss_init Tensor Loss fn kwargs w =
      (Ok self, emitted w [CallTrainerInit (super_Trainer _ _ self)]) ∧
    trainer_kwargs (super_Trainer _ _ self) = kwargs ∧
    trainer_class (super_Trainer _ _ self) = TrainerWithCustomLoss_class ∧
    let outputs := model (delete "labels" inputs) in
    let loss := fn (Outputs_logits outputs) labels in
    (compute_loss' self model inputs return_outputs).1 =
      Ok (if return_outputs then LossAndOutputs _ _ loss outputs
          else JustLoss _ _ loss).
Proof.
  intros Hl.
  exists (mkTrainerWithCustomLoss _ _ (mkTrainer TrainerWithCustomLoss_class kwargs) fn).
  split_and!; [reflexivity..|].
  unfold compute_loss, dict_pop. by rewrite Hl.
Qed.

End MoreCustomLossProperties.

Lemma compute_loss_missing_labels_witness :
  compute_loss Z Z Z id
    (mkTrainerWithCustomLoss Z Z (main_trainer "models" toy_train toy_val) Z.sub)
    (λ kw, default 0 (kw !! "input_ids"))
    {[ "input_ids" := 5; "attention_mask" := 1 ]} true =
  (Err (KeyError (VStr "labels")), {[ "input_ids" := 5; "attention_mask" := 1 ]}).
Proof.
  apply (compute_loss_missing_labels (Tensor := Z) (Outputs := Z) (Loss := Z) id).
  reflexivity.
Defined.

Lemma compute_loss_hides_labels_witness :
  compute_loss Z Z Z id
    (mkTrainerWithCustomLoss Z Z (main_trainer "models" toy_train toy_val) Z.sub)
    (λ kw, default 0 (kw !! "input_ids"))
    {[ "labels" := 1; "input_ids" := 5 ]} false =
  compute_loss Z Z Z id
    (mkTrainerWithCustomLoss Z Z (main_trainer "models" toy_train toy_val) Z.sub)
    (λ kw, default 0 (kw !! "input_ids") + 100 * default 0 (kw !! "labels"))
    {[ "labels" := 1; "input_ids" := 5 ]} false.
Proof.
  apply (compute_loss_hides_labels (Tensor := Z) (Outputs := Z) (Loss := Z) id).
  intros kwargs Hnone. rewrite Hnone. simpl. lia.
Defined.

Lemma custom_loss_fn_is_used_witness :
  ∃ self,
    TrainerWithCustomLoss_init Z Z Z.sub
      (trainer_kwargs (main_trainer "models" toy_train toy_val)) (toy_world toy_val) =
      (Ok self, emitted (toy_world toy_val) [CallTrainerInit (super_Trainer _ _ self)]) ∧
    trainer_kwargs (super_Trainer _ _ self) =
      trainer_kwargs (main_trainer "models" toy_train toy_val) ∧
    trainer_class (super_Trainer _ _ self) = TrainerWithCustomLoss_class ∧
    (compute_loss Z Z Z id self (λ kw, default 0 (kw !! "input_ids"))
       {[ "labels" := 1; "input_ids" := 5 ]} true).1 =
      Ok (LossAndOutputs Z Z (5 - 1) 5).
Proof.
  destruct (custom_loss_fn_is_used (Tensor := Z) (Outputs := Z) (Loss := Z) id Z.sub
              (trainer_kwargs (main_trainer "models" toy_train toy_val))
              (toy_world toy_val) (λ kw, default 0 (kw !! "input_ids"))
              {[ "labels" := 1; "input_ids" := 5 ]} 1 true)
    as (self & Hinit & Hkwargs & Hclass & Hloss); [reflexivity|].
  exists self. split_and!; [exact Hinit|exact Hkwargs|exact Hclass|exact Hloss].
Defined.

(** ** More on [convert_labels] and [tokenize] *)

(** X10: on a batch with a [label] column, [convert_labels] returns exactly
    when every label is the string "True" or "False"; whenever it returns,
    the result has the single column [label], as long as the one it read,
    and every cell of it is the integer 0 or 1. *)
Theorem convert_labels_returns_iff (examples : Batch) (labels : list Value)
    (w : World) :
  examples !! "label" = Some labels →
  ((∃ out, convert_labels examples w = (Ok out, w)) ↔ Forall raw_label labels) ∧
  (∀ out, convert_labels examples w = (Ok out, w) →
     dom out = ({[ "label" ]} : gset string) ∧
     ∃ cells, out !! "label" = Some cells ∧
              length cells = length labels ∧
              Forall (λ c, c = VInt 0 ∨ c = VInt 1) cells).
Proof.
  intros Hl. split.
  - split.
    + intros [out Hrun].
      destruct (convert_labels_Ok_inv _ _ _ _ Hl Hrun) as (ids & _ & Hids).
      eapply Forall2_Forall_l; [exact Hids|].
      apply Forall_forall. intros i _ v Hget.
      apply label_table_getitem in Hget as [[-> _]|[-> _]]; [by left|by right].
    + intros Hraw.
      destruct (result_mapM_total (dict_getitem label_table) labels) as [ids Hids].
      { eapply Forall_impl; [exact Hraw|]. intros v [->| ->]; simpl; eauto. }
      eexists. by rewrite (convert_labels_unfold _ _ _ Hl), Hids.
  - intros out Hrun.
    destruct (convert_labels_Ok_inv _ _ _ _ Hl Hrun) as (ids & -> & Hids).
    split; [by rewrite dom_singleton_L|].
    exists (VInt <$> ids). split_and!.
    + by rewrite lookup_singleton_eq.
    + rewrite length_fmap. symmetry. by eapply Forall2_length.
    + apply Forall_fmap. eapply Forall2_Forall_r; [exact Hids|].
      apply Forall_forall. intros v _ i Hget. simpl.
      apply label_table_getitem in Hget as [[_ ->]|[_ ->]]; [by right|by left].
Qed.

Lemma convert_labels_returns_iff_witness :
  ((∃ out, convert_labels {[ "label" := [VStr "True"; VStr "No"] ]} (toy_world toy_val) =
             (Ok out, toy_world toy_val)) ↔
   Forall raw_label [VStr "True"; VStr "No"]) ∧
  (∀ out, convert_labels {[ "label" := [VStr "True"; VStr "No"] ]} (toy_world toy_val) =
            (Ok out, toy_world toy_val) →
     dom out = ({[ "label" ]} : gset string) ∧
     ∃ cells, out !! "label" = Some cells ∧
              length cells = length [VStr "True"; VStr "No"] ∧
              Forall (λ c, c = VInt 0 ∨ c = VInt 1) cells).
Proof.
  apply (convert_labels_returns_iff {[ "label" := [VStr "True"; VStr "No"] ]}
           [VStr "True"; VStr "No"] (toy_world toy_val)).
  reflexivity.
Defined.

(** X11: [convert_labels] cannot be applied twice: on the batch it returned
    for a non-empty column of labels it raises [KeyError] for the first
    converted label, an integer 0 or 1 that is no key of the table. *)
Theorem convert_labels_twice (examples : Batch) (labels : list Value)
    (w : World) (out : Batch) :
  examples !! "label" = Some labels →
  labels ≠ [] →
  convert_labels examples w = (Ok out, w) →
  ∃ i, (i = 0 ∨ i = 1) ∧
       (VInt <$> (head labels ≫= λ v, match dict_getitem label_table v with
                                      | Ok i => Some i
                                      | Err _ => None
                                      end)) = Some (VInt i) ∧
       convert_labels out w = (Err (KeyError (VInt i)), w).
Proof.
  intros Hl Hne Hrun.
  destruct (convert_labels_Ok_inv _ _ _ _ Hl Hrun) as (ids & -> & Hids).
  destruct Hids as [|v i labels' ids' Hget Hrest]; [done|].
  exists i. split_and!.
  - apply label_table_getitem in Hget as [[_ ->]|[_ ->]]; [by right|by left].
  - simpl. by rewrite Hget.
  - by rewrite (convert_labels_unfold _ (VInt <$> i :: ids') _
                  (lookup_singleton_eq _ _)).
Qed.

Lemma convert_labels_twice_witness :
  ∃ i, (i = 0 ∨ i = 1) ∧
       (VInt <$> (head [VStr "True"; VStr "False"] ≫=
                    λ v, match dict_getitem label_table v with
                         | Ok i => Some i
                         | Err _ => None
                         end)) = Some (VInt i) ∧
       convert_labels {[ "label" := [VInt 1; VInt 0] ]} (toy_world toy_val) =
         (Err (KeyError (VInt i)), toy_world toy_val).
Proof.
  apply (convert_labels_twice {[ "label" := [VStr "True"; VStr "False"] ]}
           [VStr "True"; VStr "False"] (toy_world toy_val)
           {[ "label" := [VInt 1; VInt 0] ]}).
  - reflexivity.
  - discriminate.
  - reflexivity.
Defined.

(** X12: a batch without the column a preprocessing function reads makes it
    raise [KeyError] for that column's name: ["label"] for [convert_labels],
    ["text"] for [tokenize], which then never calls the tokenizer.  The
    world is left as it was. *)
Theorem preprocessing_missing_column (examples : Batch) (w : World) :
  (examples !! "label" = None →
   convert_labels examples w = (Err (KeyError (VStr "label")), w)) ∧
  (examples !! "text" = None →
   ∀ tokenizer_call tokenizer,
     tokenize tokenizer_call tokenizer examples w =
       (Err (KeyError (VStr "text")), w)).
Proof.
  split.
  - intros Hnone. unfold convert_labels, bind, lift, batch_getitem. simpl.
    by rewrite Hnone.
  - intros Hnone tokenizer_call tokenizer.
    unfold tokenize, bind, lift, batch_getitem. simpl. by rewrite Hnone.
Qed.

(** ** More on [get_max_steps] *)

Lemma get_max_steps_nonempty (files : gmap string (list string)) train_path f
    num_train_epochs batch_size :
  files !! train_path = Some f →
  f ≠ [] →
  get_max_steps files train_path num_train_epochs batch_size =
    floordiv (Z.of_nat (length f) * num_train_epochs) batch_size.
Proof.
  intros Hf Hne. unfold get_max_steps. rewrite Hf, enumerate_loop_last.
  destruct f as [|l f']; [done|]. f_equal. lia.
Qed.

(** X13: of a file that reads as text lines [get_max_steps] uses only the
    number of lines: two such files with the same number of lines give the
    same result, a number of steps or an exception. *)
Theorem get_max_steps_line_count (files files' : gmap string (list string))
    train_path train_path' f f' num_train_epochs batch_size :
  files !! train_path = Some f →
  files' !! train_path' = Some f' →
  length f = length f' →
  get_max_steps files train_path num_train_epochs batch_size =
    get_max_steps files' train_path' num_train_epochs batch_size.
Proof.
  intros Hf Hf' Hlen. destruct f as [|l f0], f' as [|l' f0']; try discriminate.
  - unfold get_max_steps. by rewrite Hf, Hf'.
  - rewrite (get_max_steps_nonempty _ _ _ _ _ Hf), (get_max_steps_nonempty _ _ _ _ _ Hf');
      [|done..].
    by rewrite Hlen.
Qed.

Lemma get_max_steps_line_count_witness :
  get_max_steps {[ "a.jsonl" := ["x"; "y"] ]} "a.jsonl" 50 16 =
  get_max_steps {[ "b.jsonl" := ["{}"; ""] ]} "b.jsonl" 50 16.
Proof.
  apply (get_max_steps_line_count _ _ _ _ ["x"; "y"] ["{}"; ""]); reflexivity.
Defined.

(** X14: with a positive batch size and no negative number of epochs,
    [get_max_steps] is monotone: a file with at least as many lines, trained
    for at least as many epochs, gets at least as many steps. *)
Theorem get_max_steps_monotone (files : gmap string (list string))
    train_path train_path' f f' (epochs epochs' batch_size : Z) :
  files !! train_path = Some f →
  files !! train_path' = Some f' →
  f ≠ [] →
  (length f ≤ length f')%nat →
  (0 ≤ epochs ≤ epochs')%Z →
  (0 < batch_size)%Z →
  ∃ steps steps',
    get_max_steps files train_path epochs batch_size = Ok steps ∧
    get_max_steps files train_path' epochs' batch_size = Ok steps' ∧
    (0 ≤ steps ≤ steps')%Z.
Proof.
  intros Hf Hf' Hne Hlen Hepochs Hbatch.
  assert (f' ≠ []) as Hne' by (destruct f, f'; simpl in *; [done|done|lia|done]).
  rewrite (get_max_steps_nonempty _ _ _ _ _ Hf Hne),
    (get_max_steps_nonempty _ _ _ _ _ Hf' Hne').
  unfold floordiv. destruct (Z.eqb_spec batch_size 0) as [|_]; [lia|].
  do 2 eexists. split_and!; [done..| |].
  - apply Z.div_pos; [|done]. apply Z.mul_nonneg_nonneg; lia.
  - apply Z.div_le_mono; [done|]. apply Z.mul_le_mono_nonneg; lia.
Qed.

Lemma get_max_steps_monotone_witness :
  ∃ steps steps',
    get_max_steps {[ "a.jsonl" := ["x"]; "b.jsonl" := ["x"; "y"] ]} "a.jsonl" 20 16 =
      Ok steps ∧
    get_max_steps {[ "a.jsonl" := ["x"]; "b.jsonl" := ["x"; "y"] ]} "b.jsonl" 50 16 =
      Ok steps' ∧
    (0 ≤ steps ≤ steps')%Z.
Proof.
  apply (get_max_steps_monotone _ _ _ ["x"] ["x"; "y"]).
  - reflexivity.
  - reflexivity.
  - discriminate.
  - simpl. lia.
  - lia.
  - lia.
Defined.

(** X15: with a positive batch size and no negative number of epochs,
    [get_max_steps] returns 0 exactly when the lines times the epochs do not
    fill one batch. *)
Theorem get_max_steps_zero_iff (files : gmap string (list string)) train_path f
    (num_train_epochs batch_size : Z) :
  files !! train_path = Some f →
  f ≠ [] →
  (0 ≤ num_train_epochs)%Z →
  (0 < batch_size)%Z →
  get_max_steps files train_path num_train_epochs batch_size = Ok 0 ↔
  (Z.of_nat (length f) * num_train_epochs < batch_size)%Z.
Proof.
  intros Hf Hne Hepochs Hbatch.
  rewrite (get_max_steps_nonempty _ _ _ _ _ Hf Hne).
  unfold floordiv. destruct (Z.eqb_spec batch_size 0) as [|_]; [lia|].
  assert (0 ≤ Z.of_nat (length f) * num_train_epochs)%Z as Hpos
    by (apply Z.mul_nonneg_nonneg; lia).
  split.
  - intros [= Hzero]. apply Z.div_small_iff in Hzero; lia.
  - intros Hsmall. f_equal. apply Z.div_small. lia.
Qed.

Lemma get_max_steps_zero_iff_witness :
  get_max_steps {[ "a.jsonl" := ["x"; "y"; "z"] ]} "a.jsonl" 5 16 = Ok 0 ↔
  (Z.of_nat (length ["x"; "y"; "z"]) * 5 < 16)%Z.
Proof.
  apply (get_max_steps_zero_iff _ _ ["x"; "y"; "z"]).
  - reflexivity.
  - discriminate.
  - lia.
  - lia.
Defined.

(** X16: for a path without a file [get_max_steps] raises
    [FileNotFoundError], whatever the other arguments; for a file that reads
    as text lines it returns a number of steps exactly when the file has a
    line and the batch size is not zero. *)
Theorem get_max_steps_returns_iff (files : gmap string (list string)) train_path
    (num_train_epochs batch_size : Z) :
  (files !! train_path = None →
   get_max_steps files train_path num_train_epochs batch_size =
     Err (FileNotFoundError train_path)) ∧
  (∀ f, files !! train_path = Some f →
     ((∃ steps,
         get_max_steps files train_path num_train_epochs batch_size = Ok steps) ↔
      f ≠ [] ∧ batch_size ≠ 0)).
Proof.
  split.
  - intros Hnone. unfold get_max_steps. by rewrite Hnone.
  - intros f Hf. split.
    + intros [steps Hrun]. unfold get_max_steps in Hrun.
      rewrite Hf, enumerate_loop_last in Hrun.
      destruct f as [|l f']; [discriminate|].
      unfold floordiv in Hrun.
      destruct (Z.eqb_spec batch_size 0) as [|Hb]; [discriminate|]. done.
    + intros [Hne Hb].
      rewrite (get_max_steps_nonempty _ _ _ _ _ Hf Hne). unfold floordiv.
      destruct (Z.eqb_spec batch_size 0) as [|_]; [done|]. eauto.
Qed.

(** ** More on [main] *)

Section MoreMainProperties.

Context (tokenizer_call : Tokenizer → list Value → bool → string → Result Batch).
Context (shuffle_rows : Z → Dataset → Dataset).
Context (data_folder models_folder best_system_device : string).

Local Abbreviation main' :=
  (main tokenizer_call shuffle_rows data_folder models_folder best_system_device).
Local Abbreviation setup_calls' :=
  (setup_calls data_folder models_folder best_system_device).

(** X17: [main] looks for the data only after it has put the loss weights on
    the device and asked the hub for the model and the tokenizer: its first
    four framework calls are the same in every run.  When the train file is
    missing, or the val file while the train file is there, [main] raises
    [FileNotFoundError] for that file right after these four calls and does
    nothing more. *)
Theorem main_missing_file (w : World) :
  let train_path :=
    path_join (path_join data_folder "finetuning") "augmented_train.jsonl" in
  let val_path := path_join (path_join data_folder "finetuning") "val.jsonl" in
  (∃ new, (main' w).2 = emitted w new ∧ take 4 new = take 4 setup_calls') ∧
  (disk w !! train_path = None →
   main' w = (Err (FileNotFoundError train_path), emitted w (take 4 setup_calls'))) ∧
  (is_Some (disk w !! train_path) →
   disk w !! val_path = None →
   main' w = (Err (FileNotFoundError val_path), emitted w (take 4 setup_calls'))).
Proof.
  intros train_path val_path.
  assert (∀ r,
            loaded (disk w) (main_data_files data_folder) = Err r →
            main' w = (Err r, emitted w (take 4 setup_calls'))) as Hfail.
  { intros r Hr. unfold main.
    rewrite (bind_run _ _ _ _ _ (Tensor_to_run _ _ _)).
    rewrite (bind_run _ _ _ _ _ (AutoModel_from_pretrained_run _ _ _ _ _)).
    rewrite (bind_run _ _ _ _ _ (AutoTokenizer_from_pretrained_run _ _ _)).
    rewrite (bind_run _ _ _ _ _ (load_dataset_run _ _)).
    rewrite !emitted_emitted.
    change (disk (emitted w _)) with (disk w).
    fold (main_data_files data_folder). by rewrite Hr. }
  split_and!.
  - destruct (main_run tokenizer_call shuffle_rows data_folder models_folder
                best_system_device w) as (new & Hw & Hnew).
    exists new. split; [done|].
    destruct (main' w).1.
    + by destruct Hnew as (p & _ & ->).
    + destruct Hnew as [[rest ->] Hlen].
      by rewrite take_app_le by lia.
  - intros Hnone. apply Hfail. unfold loaded, main_data_files. simpl.
    fold train_path. by rewrite Hnone.
  - intros [ds Hds] Hnone. apply Hfail. unfold loaded, main_data_files. simpl.
    fold train_path val_path. by rewrite Hds, Hnone.
Qed.

End MoreMainProperties.

Lemma main_missing_file_witness :
  toy_main toy_world_without_val =
    (Err (FileNotFoundError "data/finetuning/val.jsonl"),
     emitted toy_world_without_val (take 4 (setup_calls "data" "models" "cpu"))).
Proof.
  destruct (main_missing_file (tokenizer_call_model toy_tokens) toy_shuffle
              "data" "models" "cpu" toy_world_without_val) as (_ & _ & H).
  apply H.
  - by eexists.
  - reflexivity.
Defined.

